(** * Statistics.py: spreadsheet-compatible statistics functions

    A shallow embedding of [Statistics.py] and the properties of its
    functions.  Python floats are IEEE 754 binary64 numbers and are modelled
    by Rocq's primitive floats, so that every function can be evaluated on
    concrete inputs (up to the C library's [pow], see [float_pow2]).
    Python integers are unbounded and are
    modelled by [Z].  An exception raised by the code is a value of the
    error monad [result]. *)

From Stdlib Require Import ZArith List String Bool Lia Floats.
From Stdlib Require Uint63.
Import ListNotations.

Local Open Scope string_scope.

(** ** Exceptions and the error monad *)

(** The exceptions the module can raise: its own [raise Exception(msg)]
    statements, and the built-in exceptions of the arithmetic it uses. *)
Inductive exn : Type :=
| Exception (msg : string)
| ZeroDivisionError
| OverflowError
| ValueError
| TypeError.

Inductive result (A : Type) : Type :=
| Return (a : A)
| Raise (e : exn).

Arguments Return {A} a.
Arguments Raise {A} e.

Definition bind {A B : Type} (m : result A) (k : A -> result B) : result B :=
  match m with
  | Return a => k a
  | Raise e => Raise e
  end.

Notation "x <- m ;; k" := (bind m (fun x => k))
  (at level 61, m at next level, right associativity).

(** [m] raises an exception of the kind [K]. *)
Definition raises {A : Type} (m : result A) (K : exn -> Prop) : Prop :=
  exists e, m = Raise e /\ K e.

Definition returns {A : Type} (m : result A) : bool :=
  match m with
  | Return _ => true
  | Raise _ => false
  end.

(** The messages of the module's [raise] statements. *)
Definition msg_no_points := "One or more data points must exist.".
Definition msg_empty_args := "Arguments cannot be empty.".
Definition msg_length := "Arguments must have the same number of data points.".
Definition msg_zero_stdev := "Standard deviation of an argument cannot be zero.".
Definition msg_not_numeric := "X must be a numeric value.".
Definition msg_zero_variance := "The variance of known_x cannot equal zero.".

(** The error kinds of the specification, as classes of exceptions. *)
Definition EmptyInputError (e : exn) : Prop :=
  e = Exception msg_no_points \/ e = Exception msg_empty_args.

Definition LengthMismatchError (e : exn) : Prop :=
  e = Exception msg_length.

Definition ZeroVarianceError (e : exn) : Prop :=
  e = Exception msg_zero_stdev \/ e = Exception msg_zero_variance.

Definition NotANumberError (e : exn) : Prop :=
  e = Exception msg_not_numeric.

(** ** Python numbers *)

(** An element of a data sequence: a Python [int] or a Python [float]. *)
Inductive number : Type :=
| PyInt (z : Z)
| PyFloat (f : float).

(** The scalar argument of [forecast] is an arbitrary object: a number, a
    bool, a string, [None], or an object of any other type, given by the
    names of its attributes, that a float cannot be multiplied by (a
    [decimal.Decimal] or a [uuid.UUID], which both have [__int__]). *)
Inductive value : Type :=
| VNum (n : number)
| VBool (b : bool)
| VStr (s : string)
| VNone
| VObject (attrs : list string).

(** [float(z)] for an int [z]: the nearest binary64 number, ties to even;
    [OverflowError] when [z] is too large for a float. *)
Definition float_of_int (z : Z) : result float :=
  let f := SF2Prim (binary_normalize prec emax z 0 false) in
  if is_infinity f then Raise OverflowError else Return f.

Definition to_float (n : number) : result float :=
  match n with
  | PyInt z => float_of_int z
  | PyFloat f => Return f
  end.

(** [a / b] on floats: Python raises [ZeroDivisionError] when [b == 0.0],
    whatever [a] is. *)
Definition float_truediv (a b : float) : result float :=
  if (b =? 0)%float then Raise ZeroDivisionError else Return (a / b)%float.

(** [v ** 2] on a float [v] ([float_pow] with exponent [2.0]): the special
    cases are settled first, then the C library's [pow] is called; an
    infinite result of finite operands is an [OverflowError], an underflow
    is not an error.  The value of [pow(|v|, 2.0)] is taken to be the
    correctly rounded square.  A C library may return a neighbouring float
    when the square is not representable (glibc's [pow] is within one unit
    in the last place), so the theorems below use of this value only what
    every such library gives: the special cases, the squares that are
    exact, the sign and the overflow. *)
Definition float_pow2 (iv : float) : result float :=
  if is_nan iv then Return iv
  else if is_infinity iv then Return (abs iv)
  else if (iv =? 0)%float then Return 0%float
  else
    let iv' := abs iv in
    if (iv' =? 1)%float then Return 1%float
    else
      let ix := (iv' * iv')%float in
      if is_infinity ix then Raise OverflowError else Return ix.

(** [math.sqrt(x)]: [ValueError] on a negative argument. *)
Definition math_sqrt (x : float) : result float :=
  if (x <? 0)%float then Raise ValueError else Return (sqrt x).

(** [a + b] on numbers: exact on two ints, otherwise the int operand is
    converted and the floats are added. *)
Definition num_add (a b : number) : result number :=
  match a, b with
  | PyInt x, PyInt y => Return (PyInt (x + y))
  | _, _ =>
      x <- to_float a ;;
      y <- to_float b ;;
      Return (PyFloat (x + y))
  end.

(** [a / b] with [b] a float. *)
Definition num_truediv (a : number) (b : float) : result float :=
  x <- to_float a ;;
  float_truediv x b.

(** [a - b] with [b] a float. *)
Definition num_sub (a : number) (b : float) : result float :=
  x <- to_float a ;;
  Return (x - b)%float.

(** [sum(data)]: [0 + data[0] + data[1] + ...], from left to right. *)
Fixpoint sum_from (acc : number) (data : list number) : result number :=
  match data with
  | [] => Return acc
  | x :: rest => acc' <- num_add acc x ;; sum_from acc' rest
  end.

Definition sum (data : list number) : result number :=
  sum_from (PyInt 0) data.

Definition len {A : Type} (data : list A) : Z := Z.of_nat (List.length data).

(** ** The functions of Statistics.py *)

Definition average (data : list number) : result float :=
  let n := len data in
  if (n =? 0)%Z then Raise (Exception msg_no_points)
  else
    s <- sum data ;;
    d <- float_of_int n ;;
    num_truediv s d.

(** The loop of [avgdev]: [tot += abs(x - mu)]. *)
Fixpoint avgdev_loop (mu : float) (data : list number) (tot : float)
  : result float :=
  match data with
  | [] => Return tot
  | x :: rest =>
      d <- num_sub x mu ;;
      avgdev_loop mu rest (tot + abs d)%float
  end.

Definition avgdev (data : list number) : result float :=
  let n := len data in
  if (n =? 0)%Z then Raise (Exception msg_no_points)
  else
    mu <- average data ;;
    tot <- avgdev_loop mu data 0%float ;;
    d <- float_of_int n ;;
    q <- num_truediv (PyInt 1) d ;;
    Return (q * tot)%float.

(** The loop of [devsq]: [tot += (x - mu) ** 2]. *)
Fixpoint devsq_loop (mu : float) (data : list number) (tot : float)
  : result float :=
  match data with
  | [] => Return tot
  | x :: rest =>
      d <- num_sub x mu ;;
      q <- float_pow2 d ;;
      devsq_loop mu rest (tot + q)%float
  end.

Definition devsq (data : list number) : result float :=
  mu <- average data ;;
  devsq_loop mu data 0%float.

(** The loop of [sumdev] over [zip(array1, array2)]:
    [tot += ((x - mu1) * (y - mu2))]. *)
Fixpoint sumdev_loop (mu1 mu2 : float) (pairs : list (number * number))
  (tot : float) : result float :=
  match pairs with
  | [] => Return tot
  | (x, y) :: rest =>
      dx <- num_sub x mu1 ;;
      dy <- num_sub y mu2 ;;
      sumdev_loop mu1 mu2 rest (tot + dx * dy)%float
  end.

Definition sumdev (array1 array2 : list number) : result float :=
  let n1 := len array1 in
  let n2 := len array2 in
  if ((n1 =? 0)%Z || (n2 =? 0)%Z)%bool then Raise (Exception msg_empty_args)
  else if negb (n1 =? n2)%Z then Raise (Exception msg_length)
  else
    mu1 <- average array1 ;;
    mu2 <- average array2 ;;
    sumdev_loop mu1 mu2 (combine array1 array2) 0%float.

Definition covar (array1 array2 : list number) : result float :=
  let n1 := len array1 in
  let n2 := len array2 in
  if ((n1 =? 0)%Z || (n2 =? 0)%Z)%bool then Raise (Exception msg_empty_args)
  else if negb (n1 =? n2)%Z then Raise (Exception msg_length)
  else
    s <- sumdev array1 array2 ;;
    d <- float_of_int n1 ;;
    float_truediv s d.

Definition variance (data : list number) (is_sample : bool) : result float :=
  let n := len data in
  if (n =? 0)%Z then Raise (Exception msg_no_points)
  else
    mu <- average data ;;
    ds <- devsq data ;;
    if is_sample then
      d <- float_of_int (n - 1) ;;
      float_truediv ds d
    else
      d <- float_of_int n ;;
      float_truediv ds d.

Definition var (data : list number) : result float := variance data true.

Definition varp (data : list number) : result float := variance data false.

Definition standard_deviation (data : list number) (is_sample : bool)
  : result float :=
  if is_sample then v <- var data ;; math_sqrt v
  else v <- varp data ;; math_sqrt v.

Definition stdev (data : list number) : result float :=
  standard_deviation data true.

Definition stdevp (data : list number) : result float :=
  standard_deviation data false.

Definition correl (array1 array2 : list number) : result float :=
  let n1 := len array1 in
  let n2 := len array2 in
  if ((n1 =? 0)%Z || (n2 =? 0)%Z)%bool then Raise (Exception msg_empty_args)
  else if negb (n1 =? n2)%Z then Raise (Exception msg_length)
  else
    stdev1 <- stdevp array1 ;;
    stdev2 <- stdevp array2 ;;
    if ((stdev1 =? 0)%float || (stdev2 =? 0)%float)%bool
    then Raise (Exception msg_zero_stdev)
    else
      c <- covar array1 array2 ;;
      float_truediv c (stdev1 * stdev2)%float.

Definition pearson (array1 array2 : list number) : result float :=
  correl array1 array2.

Definition rsq (known_y known_x : list number) : result float :=
  r <- correl known_y known_x ;;
  float_pow2 r.

Definition slope (known_y known_x : list number) : result float :=
  s <- sumdev known_x known_y ;;
  d <- devsq known_x ;;
  float_truediv s d.

Definition intercept (known_y known_x : list number) : result float :=
  muy <- average known_y ;;
  mux <- average known_x ;;
  b <- slope known_y known_x ;;
  Return (muy - b * mux)%float.

(** The attributes of the built-in types that matter to [isnumber]:
    [int], [float] and [bool] define [__int__]; [str] and [NoneType] do
    not. *)
Definition attributes (x : value) : list string :=
  match x with
  | VNum (PyInt _) => ["__int__"; "__float__"; "__index__"; "__add__"; "__mul__"]
  | VNum (PyFloat _) => ["__int__"; "__float__"; "__add__"; "__mul__"]
  | VBool _ => ["__int__"; "__float__"; "__index__"; "__add__"; "__mul__"]
  | VStr _ => ["__len__"; "__add__"; "__mul__"]
  | VNone => []
  | VObject attrs => attrs
  end.

Definition hasattr (x : value) (name : string) : bool :=
  existsb (String.eqb name) (attributes x).

Definition isnumber (x : value) : bool := hasattr x "__int__".

(** [b * x] with [b] a float: a bool counts as the int 0 or 1; a float
    cannot be multiplied by a string, by [None] or by an object of another
    type, which raises TypeError. *)
Definition float_mul_value (b : float) (x : value) : result float :=
  match x with
  | VNum n => y <- to_float n ;; Return (b * y)%float
  | VBool c => y <- float_of_int (if c then 1 else 0) ;; Return (b * y)%float
  | VStr _ | VNone | VObject _ => Raise TypeError
  end.

Definition forecast (x : value) (known_y known_x : list number)
  : result float :=
  if Bool.eqb (isnumber x) false then Raise (Exception msg_not_numeric)
  else
    varx <- varp known_x ;;
    if (varx =? 0)%float then Raise (Exception msg_zero_variance)
    else
      b <- slope known_y known_x ;;
      a <- intercept known_y known_x ;;
      bx <- float_mul_value b x ;;
      Return (a + bx)%float.

(** Sequences of int literals and of float literals. *)
Definition ints (l : list Z) : list number := map PyInt l.
Definition floats (l : list float) : list number := map PyFloat l.

(** The sequences of the regression example. *)
Definition example_y : list number := ints [2; 4; 6]%Z.
Definition example_x : list number := ints [1; 2; 3]%Z.

(** Six values of size 2 ** 511, whose squared deviations sum to an
    infinity. *)
Definition large_values : list number :=
  floats [0x1p511; -0x1p511; 0x1p511; -0x1p511; 0x1p511; -0x1p511]%float.

(** The Python float literal [0.1]. *)
Definition tenth : float := 0x1.999999999999ap-4%float.

(** ** Predicates on outcomes *)

(** [only_raises m P]: when [m] raises, the exception satisfies [P]. *)
Definition only_raises {A : Type} (m : result A) (P : exn -> Prop) : Prop :=
  forall e, m = Raise e -> P e.

(** The built-in exceptions of the arithmetic. *)
Definition builtin (e : exn) : Prop :=
  match e with
  | Exception _ => False
  | _ => True
  end.

(** What the functions below [correl] and [forecast] can raise: the
    exceptions of the emptiness and length checks, and the built-in ones. *)
Definition check_or_builtin (e : exn) : Prop :=
  EmptyInputError e \/ LengthMismatchError e \/ builtin e.

(** A number whose conversion to a float succeeds. *)
Definition convertible (x : number) : Prop := returns (to_float x) = true.

(** The outcome the specification expects of an unguarded zero denominator:
    an infinite or not-a-number float is returned. *)
Definition inf_or_nan (m : result float) : Prop :=
  exists r, m = Return r /\ (is_infinity r || is_nan r)%bool = true.

(** ** Signs of floats *)

(** A float specification whose sign bit, when it has one, is [s]. *)
Definition sf_signed (s : bool) (x : spec_float) : Prop :=
  match x with
  | S754_nan => True
  | S754_zero s' | S754_infinity s' | S754_finite s' _ _ => s' = s
  end.

(** A float specification that is not below zero: not-a-number, a zero of
    either sign, or a positive number. *)
Definition sf_nonneg (x : spec_float) : Prop :=
  match x with
  | S754_nan | S754_zero _ => True
  | S754_infinity s | S754_finite s _ _ => s = false
  end.

(** [f < 0] is false in Python: [f] is zero, positive or not-a-number. *)
Definition nonneg (f : float) : Prop := (f <? 0)%float = false.

(** ** Magnitudes of floats *)

(** The magnitude of a float specification is at least [2 ^ (B - 1)]: it
    is an infinity, or a finite number whose number of digits plus
    exponent is at least [B]. *)
Definition sf_mag_ge (B : Z) (x : spec_float) : Prop :=
  match x with
  | S754_finite _ m e => (B <= Zdigits2 (Zpos m) + e)%Z
  | S754_infinity _ => True
  | S754_zero _ | S754_nan => False
  end.

(** Not-a-number, an infinity, or a finite number of magnitude at least
    [2 ^ (B - 1)]: in particular not a zero. *)
Definition sf_away (B : Z) (x : spec_float) : Prop :=
  match x with
  | S754_nan => True
  | _ => sf_mag_ge B x
  end.

(** ** Kinds of failure *)

(** The two exceptions the float arithmetic of the module can raise. *)
Definition arithmetic_error (e : exn) : Prop :=
  e = ZeroDivisionError \/ e = OverflowError.

(** Every exception a function of the module lets out. *)
Definition module_error (e : exn) : Prop :=
  EmptyInputError e \/ LengthMismatchError e \/ ZeroVarianceError e \/
  NotANumberError e \/ arithmetic_error e.

(** ** The error monad *)

Section Monad.
Context {A B : Type}.

Lemma bind_Return (a : A) (k : A -> result B) : (x <- Return a ;; k x) = k a.
Proof. reflexivity. Qed.

Lemma bind_Raise (e : exn) (k : A -> result B) : (x <- Raise e ;; k x) = Raise e.
Proof. reflexivity. Qed.

Lemma bind_inv_Raise (m : result A) (k : A -> result B) (e : exn) :
  (x <- m ;; k x) = Raise e ->
  m = Raise e \/ exists a, m = Return a /\ k a = Raise e.
Proof.
  destruct m as [a | e']; simpl; intros H.
  - right. exists a. split; [reflexivity | exact H].
  - left. injection H as ->. reflexivity.
Qed.

Lemma bind_inv_Return (m : result A) (k : A -> result B) (b : B) :
  (x <- m ;; k x) = Return b ->
  exists a, m = Return a /\ k a = Return b.
Proof.
  destruct m as [a | e']; simpl; intros H.
  - exists a. split; [reflexivity | exact H].
  - discriminate H.
Qed.
End Monad.

Lemma raises_Raise {A : Type} (e : exn) (K : exn -> Prop) :
  K e -> raises (@Raise A e) K.
Proof. intros H. exists e. split; [reflexivity | exact H]. Qed.

Lemma raises_inv {A : Type} (e : exn) (K : exn -> Prop) :
  raises (@Raise A e) K -> K e.
Proof. intros [e' [H HK]]. injection H as ->. exact HK. Qed.

Lemma raises_not_returns {A : Type} (m : result A) (K : exn -> Prop) :
  raises m K -> returns m = false.
Proof. intros [e [-> _]]. reflexivity. Qed.

(** ** Lengths and the two argument checks *)

Lemma len_nil_iff {A : Type} (l : list A) : (len l =? 0)%Z = true <-> l = [].
Proof.
  unfold len. destruct l as [| x l]; simpl; split; intros H;
    try reflexivity; discriminate H.
Qed.

Lemma len_nonempty {A : Type} (l : list A) : l <> [] -> (len l =? 0)%Z = false.
Proof.
  intros H. destruct (len l =? 0)%Z eqn:E; [| reflexivity].
  apply len_nil_iff in E. contradiction.
Qed.

Lemma len_eqb_iff {A : Type} (l1 l2 : list A) :
  (len l1 =? len l2)%Z = true <-> List.length l1 = List.length l2.
Proof. unfold len. rewrite Z.eqb_eq. lia. Qed.

Lemma empty_check_true {A : Type} (l1 l2 : list A) :
  l1 = [] \/ l2 = [] -> ((len l1 =? 0)%Z || (len l2 =? 0)%Z)%bool = true.
Proof.
  intros [-> | ->]; [reflexivity |]. apply orb_true_r.
Qed.

Lemma empty_check_false {A : Type} (l1 l2 : list A) :
  l1 <> [] -> l2 <> [] -> ((len l1 =? 0)%Z || (len l2 =? 0)%Z)%bool = false.
Proof.
  intros H1 H2. rewrite (len_nonempty l1 H1), (len_nonempty l2 H2). reflexivity.
Qed.

Lemma length_check_true {A : Type} (l1 l2 : list A) :
  List.length l1 <> List.length l2 -> negb (len l1 =? len l2)%Z = true.
Proof.
  intros H. destruct (len l1 =? len l2)%Z eqn:E; [| reflexivity].
  apply len_eqb_iff in E. contradiction.
Qed.

Lemma length_check_false {A : Type} (l1 l2 : list A) :
  List.length l1 = List.length l2 -> negb (len l1 =? len l2)%Z = false.
Proof.
  intros H. apply (proj2 (len_eqb_iff l1 l2)) in H. rewrite H. reflexivity.
Qed.

(** The messages are pairwise different, so the error kinds are disjoint. *)
Lemma EmptyInput_not_LengthMismatch (e : exn) :
  EmptyInputError e -> ~ LengthMismatchError e.
Proof. intros [-> | ->] H; discriminate H. Qed.

(** ** The argument checks of the two-sequence functions *)

Section ArgumentChecks.
Variables array1 array2 : list number.

Section Empty.
Hypothesis Hempty : array1 = [] \/ array2 = [].

Lemma sumdev_empty : sumdev array1 array2 = Raise (Exception msg_empty_args).
Proof. unfold sumdev. rewrite (empty_check_true _ _ Hempty). reflexivity. Qed.

Lemma covar_empty : covar array1 array2 = Raise (Exception msg_empty_args).
Proof. unfold covar. rewrite (empty_check_true _ _ Hempty). reflexivity. Qed.

Lemma correl_empty : correl array1 array2 = Raise (Exception msg_empty_args).
Proof. unfold correl. rewrite (empty_check_true _ _ Hempty). reflexivity. Qed.
End Empty.

Section Mismatch.
Hypothesis Hne1 : array1 <> [].
Hypothesis Hne2 : array2 <> [].
Hypothesis Hlen : List.length array1 <> List.length array2.

Lemma sumdev_mismatch : sumdev array1 array2 = Raise (Exception msg_length).
Proof.
  unfold sumdev.
  rewrite (empty_check_false _ _ Hne1 Hne2), (length_check_true _ _ Hlen).
  reflexivity.
Qed.

Lemma covar_mismatch : covar array1 array2 = Raise (Exception msg_length).
Proof.
  unfold covar.
  rewrite (empty_check_false _ _ Hne1 Hne2), (length_check_true _ _ Hlen).
  reflexivity.
Qed.

Lemma correl_mismatch : correl array1 array2 = Raise (Exception msg_length).
Proof.
  unfold correl.
  rewrite (empty_check_false _ _ Hne1 Hne2), (length_check_true _ _ Hlen).
  reflexivity.
Qed.
End Mismatch.
End ArgumentChecks.

Lemma slope_sumdev_raises (known_y known_x : list number) (e : exn) :
  sumdev known_x known_y = Raise e -> slope known_y known_x = Raise e.
Proof. intros H. unfold slope. rewrite H. reflexivity. Qed.

(** ** Which exceptions a computation can raise *)

Section OnlyRaises.
Context {A : Type}.
Variable P : exn -> Prop.

Lemma only_raises_Return (a : A) : only_raises (Return a) P.
Proof. intros e H. discriminate H. Qed.

Lemma only_raises_Raise (e : exn) : P e -> only_raises (@Raise A e) P.
Proof. intros H e' E. injection E as <-. exact H. Qed.

Lemma only_raises_if (b : bool) (m1 m2 : result A) :
  only_raises m1 P -> only_raises m2 P ->
  only_raises (if b then m1 else m2) P.
Proof. destruct b; auto. Qed.

Lemma only_raises_bind {B : Type} (m : result B) (k : B -> result A) :
  only_raises m P -> (forall b, only_raises (k b) P) ->
  only_raises (x <- m ;; k x) P.
Proof.
  intros Hm Hk e H. apply bind_inv_Raise in H as [H | [b [_ H]]].
  - exact (Hm e H).
  - exact (Hk b e H).
Qed.

Lemma only_raises_mono (Q : exn -> Prop) (m : result A) :
  (forall e, Q e -> P e) -> only_raises m Q -> only_raises m P.
Proof. intros HQ Hm e H. apply HQ, (Hm e H). Qed.
End OnlyRaises.

Lemma builtin_check_or_builtin (e : exn) : builtin e -> check_or_builtin e.
Proof. intros H. right. right. exact H. Qed.

Create HintDb raises.

#[local] Hint Resolve only_raises_Return only_raises_Raise only_raises_if
  only_raises_bind : raises.
#[local] Hint Extern 1 (builtin _) => exact I : raises.
#[local] Hint Extern 1 (check_or_builtin (Exception msg_no_points)) =>
  left; left; reflexivity : raises.
#[local] Hint Extern 1 (check_or_builtin (Exception msg_empty_args)) =>
  left; right; reflexivity : raises.
#[local] Hint Extern 1 (check_or_builtin (Exception msg_length)) =>
  right; left; reflexivity : raises.

Ltac lift_builtin :=
  apply (only_raises_mono check_or_builtin builtin _ builtin_check_or_builtin).

Section ArithmeticRaises.
Lemma float_of_int_raises (z : Z) : only_raises (float_of_int z) builtin.
Proof. unfold float_of_int. auto with raises. Qed.

Lemma to_float_raises (n : number) : only_raises (to_float n) builtin.
Proof. destruct n; simpl; auto using float_of_int_raises with raises. Qed.

Lemma float_truediv_raises (a b : float) : only_raises (float_truediv a b) builtin.
Proof. unfold float_truediv. auto with raises. Qed.

Lemma float_pow2_raises (v : float) : only_raises (float_pow2 v) builtin.
Proof. unfold float_pow2. auto 10 with raises. Qed.

Lemma math_sqrt_raises (x : float) : only_raises (math_sqrt x) builtin.
Proof. unfold math_sqrt. auto with raises. Qed.

Lemma num_add_raises (a b : number) : only_raises (num_add a b) builtin.
Proof.
  destruct a, b; simpl; auto using float_of_int_raises with raises.
Qed.

Lemma num_truediv_raises (a : number) (b : float) :
  only_raises (num_truediv a b) builtin.
Proof.
  unfold num_truediv. auto using to_float_raises, float_truediv_raises with raises.
Qed.

Lemma num_sub_raises (a : number) (b : float) : only_raises (num_sub a b) builtin.
Proof. unfold num_sub. auto using to_float_raises with raises. Qed.

Lemma sum_from_raises (data : list number) :
  forall acc, only_raises (sum_from acc data) builtin.
Proof.
  induction data as [| x rest IH]; intros acc; simpl.
  - auto with raises.
  - apply only_raises_bind; [apply num_add_raises | intros acc'; apply IH].
Qed.

Lemma float_mul_value_raises (b : float) (x : value) :
  only_raises (float_mul_value b x) builtin.
Proof.
  destruct x; simpl;
    auto using to_float_raises, float_of_int_raises with raises.
Qed.
End ArithmeticRaises.

#[local] Hint Resolve float_of_int_raises to_float_raises float_truediv_raises
  float_pow2_raises math_sqrt_raises num_add_raises num_truediv_raises
  num_sub_raises sum_from_raises float_mul_value_raises : raises.

Section FunctionRaises.
Lemma average_raises (data : list number) :
  only_raises (average data) check_or_builtin.
Proof.
  unfold average. apply only_raises_if; [auto with raises |].
  lift_builtin. unfold sum. auto with raises.
Qed.

Lemma avgdev_loop_raises (mu : float) (data : list number) :
  forall tot, only_raises (avgdev_loop mu data tot) builtin.
Proof.
  induction data as [| x rest IH]; intros tot; simpl; auto with raises.
Qed.

Lemma devsq_loop_raises (mu : float) (data : list number) :
  forall tot, only_raises (devsq_loop mu data tot) builtin.
Proof.
  induction data as [| x rest IH]; intros tot; simpl; auto with raises.
Qed.

Lemma sumdev_loop_raises (mu1 mu2 : float) (pairs : list (number * number)) :
  forall tot, only_raises (sumdev_loop mu1 mu2 pairs tot) builtin.
Proof.
  induction pairs as [| [x y] rest IH]; intros tot; simpl; auto with raises.
Qed.

Lemma devsq_raises (data : list number) :
  only_raises (devsq data) check_or_builtin.
Proof.
  unfold devsq. apply only_raises_bind; [apply average_raises | intros mu].
  lift_builtin. apply devsq_loop_raises.
Qed.

Lemma sumdev_raises (array1 array2 : list number) :
  only_raises (sumdev array1 array2) check_or_builtin.
Proof.
  unfold sumdev. repeat (apply only_raises_if; [auto with raises |]).
  apply only_raises_bind; [apply average_raises | intros mu1].
  apply only_raises_bind; [apply average_raises | intros mu2].
  lift_builtin. apply sumdev_loop_raises.
Qed.

Lemma covar_raises (array1 array2 : list number) :
  only_raises (covar array1 array2) check_or_builtin.
Proof.
  unfold covar. repeat (apply only_raises_if; [auto with raises |]).
  apply only_raises_bind; [apply sumdev_raises | intros s].
  lift_builtin. auto with raises.
Qed.

Lemma variance_raises (data : list number) (is_sample : bool) :
  only_raises (variance data is_sample) check_or_builtin.
Proof.
  unfold variance. apply only_raises_if; [auto with raises |].
  apply only_raises_bind; [apply average_raises | intros mu].
  apply only_raises_bind; [apply devsq_raises | intros ds].
  lift_builtin. auto with raises.
Qed.

Lemma slope_raises (known_y known_x : list number) :
  only_raises (slope known_y known_x) check_or_builtin.
Proof.
  unfold slope.
  apply only_raises_bind; [apply sumdev_raises | intros s].
  apply only_raises_bind; [apply devsq_raises | intros d].
  lift_builtin. auto with raises.
Qed.

Lemma intercept_raises (known_y known_x : list number) :
  only_raises (intercept known_y known_x) check_or_builtin.
Proof.
  unfold intercept.
  apply only_raises_bind; [apply average_raises | intros muy].
  apply only_raises_bind; [apply average_raises | intros mux].
  apply only_raises_bind; [apply slope_raises | intros b].
  auto with raises.
Qed.
End FunctionRaises.

(** The exceptions of the checks and of the arithmetic are neither a
    zero-variance error nor a not-a-number error. *)
Lemma check_or_builtin_not_ZeroVariance (e : exn) :
  check_or_builtin e -> ~ ZeroVarianceError e.
Proof.
  intros [[-> | ->] | [-> | H]] [Z | Z]; try discriminate Z;
    subst e; exact H.
Qed.

Lemma check_or_builtin_not_NotANumber (e : exn) :
  check_or_builtin e -> ~ NotANumberError e.
Proof.
  intros [[-> | ->] | [-> | H]] Z; try discriminate Z; red in Z;
    subst e; exact H.
Qed.

(** ** When the arithmetic returns *)

Lemma float_truediv_nonzero (a b : float) :
  (b =? 0)%float = false -> float_truediv a b = Return (a / b)%float.
Proof. intros H. unfold float_truediv. rewrite H. reflexivity. Qed.

Lemma float_truediv_zero (a b : float) :
  (b =? 0)%float = true -> float_truediv a b = Raise ZeroDivisionError.
Proof. intros H. unfold float_truediv. rewrite H. reflexivity. Qed.

Lemma float_truediv_Return_inv (a b r : float) :
  float_truediv a b = Return r -> (b =? 0)%float = false /\ r = (a / b)%float.
Proof.
  unfold float_truediv. destruct (b =? 0)%float; intros H.
  - discriminate H.
  - injection H as <-. split; reflexivity.
Qed.

Lemma returns_true_inv {A : Type} (m : result A) :
  returns m = true -> exists a, m = Return a.
Proof. destruct m as [a | e]; intros H; [exists a; reflexivity | discriminate H]. Qed.

Lemma num_sub_Return_inv (x : number) (mu r : float) :
  num_sub x mu = Return r -> convertible x.
Proof.
  unfold num_sub, convertible. destruct (to_float x); simpl; intros H;
    [reflexivity | discriminate H].
Qed.

Lemma num_sub_convertible (x : number) (mu : float) :
  convertible x -> exists r, num_sub x mu = Return r.
Proof.
  unfold num_sub, convertible. destruct (to_float x) as [f | e]; simpl; intros H.
  - eexists. reflexivity.
  - discriminate H.
Qed.

Lemma devsq_loop_convertible (mu : float) (data : list number) :
  forall tot r, devsq_loop mu data tot = Return r -> Forall convertible data.
Proof.
  induction data as [| x rest IH]; intros tot r H; simpl in H.
  - constructor.
  - apply bind_inv_Return in H as [d [Hd H]].
    apply bind_inv_Return in H as [q [_ H]].
    constructor; [exact (num_sub_Return_inv _ _ _ Hd) | exact (IH _ _ H)].
Qed.

Lemma sumdev_loop_returns (mu1 mu2 : float) (array1 : list number) :
  forall array2 tot,
    Forall convertible array1 -> Forall convertible array2 ->
    exists r, sumdev_loop mu1 mu2 (combine array1 array2) tot = Return r.
Proof.
  induction array1 as [| x rest1 IH]; intros array2 tot H1 H2.
  - exists tot. reflexivity.
  - destruct array2 as [| y rest2].
    + exists tot. reflexivity.
    + inversion H1 as [| ? ? Hx Hrest1]; subst.
      inversion H2 as [| ? ? Hy Hrest2]; subst.
      destruct (num_sub_convertible x mu1 Hx) as [dx Edx].
      destruct (num_sub_convertible y mu2 Hy) as [dy Edy].
      simpl. rewrite Edx, Edy. simpl. apply IH; assumption.
Qed.

(** What a returning [variance] tells about its parts. *)
Lemma variance_Return_inv (data : list number) (is_sample : bool) (v : float) :
  variance data is_sample = Return v ->
  exists mu ds d,
    average data = Return mu /\
    devsq_loop mu data 0%float = Return ds /\
    float_of_int (len data - (if is_sample then 1 else 0)) = Return d /\
    (d =? 0)%float = false /\
    v = (ds / d)%float.
Proof.
  unfold variance. destruct (len data =? 0)%Z; [discriminate |]. intros H.
  apply bind_inv_Return in H as [mu [Hmu H]].
  apply bind_inv_Return in H as [ds [Hds H]].
  unfold devsq in Hds. rewrite Hmu in Hds. simpl in Hds.
  exists mu, ds.
  destruct is_sample.
  - apply bind_inv_Return in H as [d [Hd H]].
    apply float_truediv_Return_inv in H as [Hz ->].
    exists d. auto.
  - apply bind_inv_Return in H as [d [Hd H]].
    apply float_truediv_Return_inv in H as [Hz ->].
    exists d. rewrite Z.sub_0_r. auto.
Qed.

Lemma standard_deviation_Return_inv (data : list number) (is_sample : bool)
  (s : float) :
  standard_deviation data is_sample = Return s ->
  exists v, variance data is_sample = Return v /\ math_sqrt v = Return s.
Proof.
  unfold standard_deviation, var, varp. destruct is_sample; intros H;
    apply bind_inv_Return in H as [v [Hv H]]; exists v; auto.
Qed.

(** When both population standard deviations are computed, so is the
    covariance: it converts the same numbers and divides by the same
    count. *)
Lemma covar_returns (array1 array2 : list number) (s1 s2 : float) :
  array1 <> [] -> List.length array1 = List.length array2 ->
  stdevp array1 = Return s1 -> stdevp array2 = Return s2 ->
  exists c, covar array1 array2 = Return c.
Proof.
  intros Hne Hlen H1 H2.
  assert (Hne2 : array2 <> []).
  { intros ->. destruct array1; [contradiction | discriminate Hlen]. }
  unfold stdevp in H1, H2.
  apply standard_deviation_Return_inv in H1 as [v1 [H1 _]].
  apply standard_deviation_Return_inv in H2 as [v2 [H2 _]].
  apply variance_Return_inv in H1 as (mu1 & ds1 & d1 & Hmu1 & Hds1 & Hd1 & Hz1 & _).
  apply variance_Return_inv in H2 as (mu2 & ds2 & d2 & Hmu2 & Hds2 & _).
  rewrite Z.sub_0_r in Hd1.
  destruct (sumdev_loop_returns mu1 mu2 array1 array2 0%float
              (devsq_loop_convertible _ _ _ _ Hds1)
              (devsq_loop_convertible _ _ _ _ Hds2)) as [t Ht].
  exists (t / d1)%float.
  unfold covar, sumdev.
  rewrite (empty_check_false _ _ Hne Hne2), (length_check_false _ _ Hlen).
  rewrite Hmu1, Hmu2. simpl. rewrite Ht. simpl. rewrite Hd1. simpl.
  apply float_truediv_nonzero. exact Hz1.
Qed.

(** ** The regression example *)

(** C2. On knownY = [2,4,6] and knownX = [1,2,3], [slope] returns exactly
    2.0, [intercept] exactly 0.0 and [forecast(4, ...)] exactly 8.0, where
    slope is sumdev(knownX, knownY) / devsq(knownX), here 4.0 / 2.0, and
    intercept is mean(knownY) - slope * mean(knownX), here 4.0 - 2.0 * 2.0. *)
Theorem regression_example :
  slope example_y example_x = Return 2%float /\
  intercept example_y example_x = Return 0%float /\
  forecast (VNum (PyInt 4)) example_y example_x = Return 8%float /\
  (forall known_y known_x,
      slope known_y known_x =
      (s <- sumdev known_x known_y ;; d <- devsq known_x ;; float_truediv s d)) /\
  (forall known_y known_x,
      intercept known_y known_x =
      (muy <- average known_y ;;
       mux <- average known_x ;;
       b <- slope known_y known_x ;;
       Return (muy - b * mux)%float)) /\
  sumdev example_x example_y = Return 4%float /\
  devsq example_x = Return 2%float /\
  average example_y = Return 4%float /\
  average example_x = Return 2%float.
Proof.
  repeat split; vm_compute; reflexivity.
Qed.

(** ** Variance *)

(** C3. On a non-empty sequence of length n (n >= 2 in the sample case),
    [variance(data, is_sample)] is devsq(data) / (n - 1) when [is_sample] is
    true and devsq(data) / n when it is false; variance([1,2,3], True) is
    1.0, variance([1,2,3], False) is 2/3, and average([1,2,3]) is 2.0, where
    average(data) is sum(data) / n. *)
Theorem variance_formula :
  (forall (data : list number) (is_sample : bool),
      data <> [] ->
      (is_sample = true -> (2 <= len data)%Z) ->
      variance data is_sample =
      (ds <- devsq data ;;
       d <- float_of_int (if is_sample then len data - 1 else len data) ;;
       float_truediv ds d)) /\
  (forall data : list number,
      data <> [] ->
      average data =
      (s <- sum data ;; d <- float_of_int (len data) ;; num_truediv s d)) /\
  variance example_x true = Return 1%float /\
  variance example_x false = Return (2 / 3)%float /\
  average example_x = Return 2%float.
Proof.
  split; [| split; [| repeat split; vm_compute; reflexivity]].
  - intros data is_sample Hne _. unfold variance, devsq.
    rewrite (len_nonempty data Hne).
    destruct (average data) as [mu | e]; simpl; [| reflexivity].
    destruct is_sample; reflexivity.
  - intros data Hne. unfold average. rewrite (len_nonempty data Hne). reflexivity.
Qed.

Lemma variance_formula_witness :
  variance (ints [1; 2; 3; 4]%Z) true =
  (ds <- devsq (ints [1; 2; 3; 4]%Z) ;;
   d <- float_of_int (len (ints [1; 2; 3; 4]%Z) - 1) ;;
   float_truediv ds d) /\
  average (ints [1; 2; 3; 4]%Z) =
  (s <- sum (ints [1; 2; 3; 4]%Z) ;;
   d <- float_of_int (len (ints [1; 2; 3; 4]%Z)) ;;
   num_truediv s d).
Proof.
  split.
  - apply (proj1 variance_formula (ints [1; 2; 3; 4]%Z) true).
    + discriminate.
    + intros _. vm_compute. discriminate.
  - apply (proj1 (proj2 variance_formula) (ints [1; 2; 3; 4]%Z)). discriminate.
Defined.

(** ** Zero denominators *)

Lemma Raise_not_inf_or_nan (e : exn) : ~ inf_or_nan (Raise e).
Proof. intros [r [H _]]. discriminate H. Qed.

(** C1, as stated, fails: on the single-element sequence [5] the sample
    variance raises ZeroDivisionError, and so does the slope over the
    constant knownX = [5,5,5]; neither returns an infinite or NaN float. *)
Lemma zero_denominator_not_inf_or_nan :
  variance (ints [5]%Z) true = Raise ZeroDivisionError /\
  ~ inf_or_nan (variance (ints [5]%Z) true) /\
  slope example_x (ints [5; 5; 5]%Z) = Raise ZeroDivisionError /\
  ~ inf_or_nan (slope example_x (ints [5; 5; 5]%Z)).
Proof.
  assert (Hv : variance (ints [5]%Z) true = Raise ZeroDivisionError)
    by (vm_compute; reflexivity).
  assert (Hs : slope example_x (ints [5; 5; 5]%Z) = Raise ZeroDivisionError)
    by (vm_compute; reflexivity).
  repeat split; trivial.
  - rewrite Hv. apply Raise_not_inf_or_nan.
  - rewrite Hs. apply Raise_not_inf_or_nan.
Qed.

(** C1, amended. On a single-element sequence the sample variance never
    returns a value: it divides devsq(data) by float(0), which raises
    ZeroDivisionError as soon as devsq(data) itself is computed.  Likewise
    [slope] raises ZeroDivisionError whenever sumdev(knownX, knownY) is
    computed and devsq(knownX) evaluates to zero. *)
Theorem zero_denominator_raises :
  (forall x : number,
      returns (variance [x] true) = false /\
      (returns (devsq [x]) = true ->
       variance [x] true = Raise ZeroDivisionError)) /\
  (forall (known_y known_x : list number) (s d : float),
      sumdev known_x known_y = Return s ->
      devsq known_x = Return d ->
      (d =? 0)%float = true ->
      slope known_y known_x = Raise ZeroDivisionError).
Proof.
  split.
  - intros x.
    assert (E : variance [x] true =
                (mu <- average [x] ;; ds <- devsq [x] ;; Raise ZeroDivisionError))
      by reflexivity.
    rewrite E. split.
    + destruct (average [x]); simpl; [| reflexivity].
      destruct (devsq [x]); reflexivity.
    + intros H. apply returns_true_inv in H as [ds Hds].
      unfold devsq in Hds |- *.
      destruct (average [x]); simpl in *; [| discriminate Hds].
      rewrite Hds. reflexivity.
  - intros known_y known_x s d Hs Hd Hz. unfold slope.
    rewrite Hs, Hd. simpl. apply float_truediv_zero, Hz.
Qed.

Lemma zero_denominator_raises_witness :
  variance [PyFloat 7%float] true = Raise ZeroDivisionError /\
  slope (ints [1; 2]%Z) (ints [3; 3]%Z) = Raise ZeroDivisionError.
Proof.
  split.
  - apply (proj2 (proj1 zero_denominator_raises (PyFloat 7%float))).
    vm_compute. reflexivity.
  - apply (proj2 zero_denominator_raises (ints [1; 2]%Z) (ints [3; 3]%Z)
             0%float 0%float); vm_compute; reflexivity.
Defined.

(** ** Argument checks *)

(** C7. On two non-empty sequences of different lengths, each of [sumdev],
    [covar], [correl] and [slope] raises LengthMismatchError. *)
Theorem length_mismatch_raises (array1 array2 : list number) :
  array1 <> [] ->
  array2 <> [] ->
  List.length array1 <> List.length array2 ->
  raises (sumdev array1 array2) LengthMismatchError /\
  raises (covar array1 array2) LengthMismatchError /\
  raises (correl array1 array2) LengthMismatchError /\
  raises (slope array1 array2) LengthMismatchError.
Proof.
  intros H1 H2 Hlen. repeat split.
  - rewrite (sumdev_mismatch _ _ H1 H2 Hlen). apply raises_Raise. reflexivity.
  - rewrite (covar_mismatch _ _ H1 H2 Hlen). apply raises_Raise. reflexivity.
  - rewrite (correl_mismatch _ _ H1 H2 Hlen). apply raises_Raise. reflexivity.
  - rewrite (slope_sumdev_raises array1 array2 (Exception msg_length)).
    + apply raises_Raise. reflexivity.
    + apply sumdev_mismatch; [exact H2 | exact H1 |].
      intros E. apply Hlen. symmetry. exact E.
Qed.

Lemma length_mismatch_raises_witness :
  raises (sumdev (ints [1; 2]%Z) example_x) LengthMismatchError /\
  raises (covar (ints [1; 2]%Z) example_x) LengthMismatchError /\
  raises (correl (ints [1; 2]%Z) example_x) LengthMismatchError /\
  raises (slope (ints [1; 2]%Z) example_x) LengthMismatchError.
Proof.
  apply (length_mismatch_raises (ints [1; 2]%Z) example_x).
  - discriminate.
  - discriminate.
  - simpl. lia.
Defined.

(** C9. In [sumdev], [covar] and [correl] the emptiness check comes before
    the length check: when at least one sequence is empty and the lengths
    differ, EmptyInputError is raised, not LengthMismatchError. *)
Theorem empty_check_precedes_length_check (array1 array2 : list number) :
  array1 = [] \/ array2 = [] ->
  List.length array1 <> List.length array2 ->
  (raises (sumdev array1 array2) EmptyInputError /\
   ~ raises (sumdev array1 array2) LengthMismatchError) /\
  (raises (covar array1 array2) EmptyInputError /\
   ~ raises (covar array1 array2) LengthMismatchError) /\
  (raises (correl array1 array2) EmptyInputError /\
   ~ raises (correl array1 array2) LengthMismatchError).
Proof.
  intros He _.
  rewrite (sumdev_empty _ _ He), (covar_empty _ _ He), (correl_empty _ _ He).
  assert (HE : EmptyInputError (Exception msg_empty_args)) by (right; reflexivity).
  assert (HL : ~ raises (@Raise float (Exception msg_empty_args))
                 LengthMismatchError).
  { intros H. apply raises_inv in H.
    exact (EmptyInput_not_LengthMismatch _ HE H). }
  repeat split; try (apply raises_Raise; exact HE); exact HL.
Qed.

Lemma empty_check_precedes_length_check_witness :
  (raises (sumdev [] (ints [1; 2]%Z)) EmptyInputError /\
   ~ raises (sumdev [] (ints [1; 2]%Z)) LengthMismatchError) /\
  (raises (covar [] (ints [1; 2]%Z)) EmptyInputError /\
   ~ raises (covar [] (ints [1; 2]%Z)) LengthMismatchError) /\
  (raises (correl [] (ints [1; 2]%Z)) EmptyInputError /\
   ~ raises (correl [] (ints [1; 2]%Z)) LengthMismatchError).
Proof.
  apply (empty_check_precedes_length_check [] (ints [1; 2]%Z)).
  - left. reflexivity.
  - simpl. lia.
Defined.

(** ** Forecast *)

Lemma forecast_numeric (x : value) (known_y known_x : list number) :
  isnumber x = true ->
  forecast x known_y known_x =
  (varx <- varp known_x ;;
   if (varx =? 0)%float then Raise (Exception msg_zero_variance)
   else
     b <- slope known_y known_x ;;
     a <- intercept known_y known_x ;;
     bx <- float_mul_value b x ;;
     Return (a + bx)%float).
Proof. intros H. unfold forecast. rewrite H. reflexivity. Qed.

Lemma forecast_not_numeric (x : value) (known_y known_x : list number) :
  isnumber x = false ->
  forecast x known_y known_x = Raise (Exception msg_not_numeric).
Proof. intros H. unfold forecast. rewrite H. reflexivity. Qed.

Lemma forecast_numeric_raises (x : value) (known_y known_x : list number) :
  isnumber x = true ->
  only_raises (forecast x known_y known_x)
    (fun e => check_or_builtin e \/ e = Exception msg_zero_variance).
Proof.
  intros H. rewrite (forecast_numeric _ _ _ H).
  assert (L : forall (m : result float),
             only_raises m check_or_builtin ->
             only_raises m
               (fun e => check_or_builtin e \/ e = Exception msg_zero_variance)).
  { intros m. apply only_raises_mono. intros e He. left. exact He. }
  apply only_raises_bind; [apply L, variance_raises | intros varx].
  apply only_raises_if; [apply only_raises_Raise; right; reflexivity |].
  apply only_raises_bind; [apply L, slope_raises | intros b].
  apply only_raises_bind; [apply L, intercept_raises | intros a].
  apply L. lift_builtin. auto with raises.
Qed.




(** C10. [isnumber(x)] is true exactly when [x] has an [__int__] attribute;
    so [forecast] raises NotANumberError on a string, and accepts a bool as
    the scalar: forecast(True, knownY, knownX) goes on to the variance check
    and computes intercept + slope * True, 2.0 on the regression example,
    and never raises NotANumberError. *)
Theorem isnumber_int_attribute :
  (forall x : value, isnumber x = true <-> In "__int__" (attributes x)) /\
  (forall (s : string) (known_y known_x : list number),
      raises (forecast (VStr s) known_y known_x) NotANumberError) /\
  (forall (c : bool) (known_y known_x : list number),
      forecast (VBool c) known_y known_x =
      (varx <- varp known_x ;;
       if (varx =? 0)%float then Raise (Exception msg_zero_variance)
       else
         b <- slope known_y known_x ;;
         a <- intercept known_y known_x ;;
         Return (a + b * (if c then 1 else 0))%float)) /\
  (forall (c : bool) (known_y known_x : list number),
      ~ raises (forecast (VBool c) known_y known_x) NotANumberError) /\
  forecast (VBool true) example_y example_x = Return 2%float.
Proof.
  split; [| split; [| split; [| split]]].
  - intros x. unfold isnumber, hasattr. rewrite existsb_exists. split.
    + intros [a [Ha E]]. apply String.eqb_eq in E. subst a. exact Ha.
    + intros H. exists "__int__". split; [exact H | reflexivity].
  - intros s known_y known_x. rewrite forecast_not_numeric by reflexivity.
    apply raises_Raise. reflexivity.
  - intros c known_y known_x. rewrite forecast_numeric by reflexivity.
    destruct c; reflexivity.
  - intros c known_y known_x [e [He HN]].
    destruct (forecast_numeric_raises (VBool c) known_y known_x eq_refl e He)
      as [H | H].
    + exact (check_or_builtin_not_NotANumber e H HN).
    + red in HN. rewrite H in HN. discriminate HN.
  - vm_compute. reflexivity.
Qed.

(** ** Empty input *)

Section EmptyInput.
Lemma no_points : @raises float (Raise (Exception msg_no_points)) EmptyInputError.
Proof. apply raises_Raise. left. reflexivity. Qed.

Lemma empty_args : @raises float (Raise (Exception msg_empty_args)) EmptyInputError.
Proof. apply raises_Raise. right. reflexivity. Qed.

Lemma one_sequence_empty :
  raises (average []) EmptyInputError /\
  raises (avgdev []) EmptyInputError /\
  raises (devsq []) EmptyInputError /\
  (forall is_sample, raises (variance [] is_sample) EmptyInputError) /\
  raises (var []) EmptyInputError /\
  raises (varp []) EmptyInputError /\
  (forall is_sample, raises (standard_deviation [] is_sample) EmptyInputError) /\
  raises (stdev []) EmptyInputError /\
  raises (stdevp []) EmptyInputError.
Proof.
  repeat split; try exact no_points; intros []; exact no_points.
Qed.

Lemma two_sequences_empty (array1 array2 : list number) :
  array1 = [] \/ array2 = [] ->
  raises (sumdev array1 array2) EmptyInputError /\
  raises (covar array1 array2) EmptyInputError /\
  raises (correl array1 array2) EmptyInputError /\
  raises (pearson array1 array2) EmptyInputError /\
  raises (rsq array1 array2) EmptyInputError /\
  raises (slope array1 array2) EmptyInputError.
Proof.
  intros He. unfold pearson, rsq.
  rewrite (slope_sumdev_raises array1 array2 (Exception msg_empty_args)).
  - rewrite (sumdev_empty _ _ He), (covar_empty _ _ He), (correl_empty _ _ He).
    repeat split; exact empty_args.
  - apply sumdev_empty. destruct He as [He | He]; [right | left]; exact He.
Qed.

Lemma intercept_empty_y (known_x : list number) :
  raises (intercept [] known_x) EmptyInputError.
Proof. exact no_points. Qed.

Lemma intercept_empty_x (known_y : list number) :
  returns (average known_y) = true ->
  raises (intercept known_y []) EmptyInputError.
Proof.
  intros H. apply returns_true_inv in H as [muy Hy].
  unfold intercept. rewrite Hy. exact no_points.
Qed.
End EmptyInput.

(** C6, as stated, fails for [intercept] with an empty knownX: the mean of
    knownY is computed first, and on knownY = [10 ** 400], an int too large
    for a float, it raises OverflowError before knownX is looked at. *)
Lemma intercept_empty_x_overflow :
  intercept (ints [10 ^ 400]%Z) [] = Raise OverflowError /\
  ~ raises (intercept (ints [10 ^ 400]%Z) []) EmptyInputError.
Proof.
  assert (E : intercept (ints [10 ^ 400]%Z) [] = Raise OverflowError)
    by (vm_compute; reflexivity).
  split; [exact E |]. rewrite E. intros H. apply raises_inv in H.
  destruct H as [H | H]; discriminate H.
Qed.

(** C6, amended. Each of [average], [avgdev], [devsq], [variance], [var],
    [varp], [standard_deviation], [stdev], [stdevp] raises EmptyInputError
    on the empty sequence; each of [sumdev], [covar], [correl], [pearson],
    [rsq], [slope] raises it when either sequence is empty; [intercept]
    raises it when knownY is empty, and when knownX is empty and the mean
    of knownY is computed. *)
Theorem empty_input_raises :
  (raises (average []) EmptyInputError /\
   raises (avgdev []) EmptyInputError /\
   raises (devsq []) EmptyInputError /\
   (forall is_sample, raises (variance [] is_sample) EmptyInputError) /\
   raises (var []) EmptyInputError /\
   raises (varp []) EmptyInputError /\
   (forall is_sample, raises (standard_deviation [] is_sample) EmptyInputError) /\
   raises (stdev []) EmptyInputError /\
   raises (stdevp []) EmptyInputError) /\
  (forall array1 array2 : list number,
      array1 = [] \/ array2 = [] ->
      raises (sumdev array1 array2) EmptyInputError /\
      raises (covar array1 array2) EmptyInputError /\
      raises (correl array1 array2) EmptyInputError /\
      raises (pearson array1 array2) EmptyInputError /\
      raises (rsq array1 array2) EmptyInputError /\
      raises (slope array1 array2) EmptyInputError) /\
  (forall known_x : list number,
      raises (intercept [] known_x) EmptyInputError) /\
  (forall known_y : list number,
      returns (average known_y) = true ->
      raises (intercept known_y []) EmptyInputError).
Proof.
  split; [exact one_sequence_empty |].
  split; [exact two_sequences_empty |].
  split; [exact intercept_empty_y | exact intercept_empty_x].
Qed.

Lemma empty_input_raises_witness :
  raises (slope example_y []) EmptyInputError /\
  raises (intercept example_y []) EmptyInputError.
Proof.
  split.
  - apply (proj1 (proj2 empty_input_raises) example_y []).
    right. reflexivity.
  - apply (proj2 (proj2 (proj2 empty_input_raises)) example_y).
    vm_compute. reflexivity.
Defined.

(** ** Self-correlation *)


(** ** Remarks on the limits of the float arithmetic *)

(** When a standard deviation cannot be computed, [correl] fails the way
    [stdevp] does: squaring the deviation 2 ** 700 overflows. *)
Example correl_propagates_stdevp_failure :
  stdevp (ints [1; 1]%Z) = Return 0%float /\
  stdevp (floats [0x1p700; -0x1p700]%float) = Raise OverflowError /\
  correl (ints [1; 1]%Z) (floats [0x1p700; -0x1p700]%float) = Raise OverflowError.
Proof. repeat split; vm_compute; reflexivity. Qed.

(** A sequence that is not constant can still have a population standard
    deviation of zero: the squares of deviations of size 2 ** -601
    underflow to zero. *)
Example correl_self_underflow :
  stdevp (floats [0; 0x1p-600]%float) = Return 0%float /\
  raises (correl (floats [0; 0x1p-600]%float) (floats [0; 0x1p-600]%float))
    ZeroVarianceError.
Proof.
  split; [vm_compute; reflexivity |].
  assert (E : correl (floats [0; 0x1p-600]%float) (floats [0; 0x1p-600]%float)
              = Raise (Exception msg_zero_stdev)) by (vm_compute; reflexivity).
  rewrite E. apply raises_Raise. left. reflexivity.
Qed.

(** ** IEEE 754 facts: signs and special values *)

Section Rounding.
Variable sx : bool.

Lemma binary_round_aux_signed (mx ex : Z) (lx : location) :
  sf_signed sx (binary_round_aux prec emax sx mx ex lx).
Proof.
  unfold binary_round_aux.
  destruct (shr_fexp prec emax mx ex lx) as [mrs' e'].
  destruct (shr_fexp prec emax _ e' loc_Exact) as [mrs'' e''].
  destruct (shr_m mrs''); simpl; trivial.
  destruct (_ <=? _)%Z; exact eq_refl.
Qed.

Lemma binary_round_signed (mx : positive) (ex : Z) :
  sf_signed sx (binary_round prec emax sx mx ex).
Proof.
  unfold binary_round.
  destruct (shl_align mx ex _) as [mz ez]. apply binary_round_aux_signed.
Qed.
End Rounding.

Lemma sf_signed_nonneg (x : spec_float) : sf_signed false x -> sf_nonneg x.
Proof. destruct x; simpl; auto. Qed.

Lemma binary_normalize_nonneg (m e : Z) :
  (0 <= m)%Z -> sf_nonneg (binary_normalize prec emax m e false).
Proof.
  intros H. destruct m as [| p | p]; simpl.
  - exact I.
  - apply sf_signed_nonneg, binary_round_signed.
  - lia.
Qed.

Lemma nonneg_spec (f : float) : nonneg f <-> sf_nonneg (Prim2SF f).
Proof.
  unfold nonneg. rewrite ltb_spec.
  change (Prim2SF 0) with (S754_zero false).
  destruct (Prim2SF f) as [s | s | | s m e]; simpl; try destruct s;
    unfold SFltb; simpl; split; intros H; trivial; discriminate H.
Qed.

Lemma eqb_zero_false_spec (f : float) :
  (f =? 0)%float = false ->
  match Prim2SF f with S754_zero _ => False | _ => True end.
Proof.
  rewrite eqb_spec. change (Prim2SF 0) with (S754_zero false).
  destruct (Prim2SF f); simpl; trivial. unfold SFeqb. simpl. discriminate.
Qed.

Lemma nonneg_add (a b : float) : nonneg a -> nonneg b -> nonneg (a + b).
Proof.
  rewrite !nonneg_spec, add_spec. unfold SF64add.
  destruct (Prim2SF a) as [sa | sa | | sa ma ea],
           (Prim2SF b) as [sb | sb | | sb mb eb]; simpl;
    intros Ha Hb; subst; simpl; trivial.
  - destruct sa, sb; exact I.
  - apply sf_signed_nonneg, binary_round_signed.
Qed.

Lemma nonneg_mul (a b : float) : nonneg a -> nonneg b -> nonneg (a * b).
Proof.
  rewrite !nonneg_spec, mul_spec. unfold SF64mul.
  destruct (Prim2SF a) as [sa | sa | | sa ma ea],
           (Prim2SF b) as [sb | sb | | sb mb eb]; simpl;
    intros Ha Hb; subst; simpl; trivial.
  apply sf_signed_nonneg, binary_round_aux_signed.
Qed.

Lemma nonneg_square (a : float) : nonneg (a * a).
Proof.
  rewrite nonneg_spec, mul_spec. unfold SF64mul.
  destruct (Prim2SF a) as [s | s | | s m e]; simpl; trivial.
  - destruct s; reflexivity.
  - rewrite xorb_nilpotent. apply sf_signed_nonneg, binary_round_aux_signed.
Qed.

Lemma nonneg_div (a b : float) :
  nonneg a -> nonneg b -> (b =? 0)%float = false -> nonneg (a / b).
Proof.
  rewrite !nonneg_spec, div_spec. unfold SF64div. intros Ha Hb Hz.
  apply eqb_zero_false_spec in Hz.
  destruct (Prim2SF a) as [sa | sa | | sa ma ea],
           (Prim2SF b) as [sb | sb | | sb mb eb]; simpl in *; trivial;
    subst; trivial; try contradiction.
  destruct (SFdiv_core_binary _ _ _ _ _ _) as [[mz ez] lz].
  apply sf_signed_nonneg, binary_round_aux_signed.
Qed.

Lemma nonneg_abs (a : float) : nonneg (abs a).
Proof.
  rewrite nonneg_spec, abs_spec. destruct (Prim2SF a); simpl; trivial.
Qed.

Lemma nonneg_sqrt (a : float) : nonneg (sqrt a).
Proof.
  rewrite nonneg_spec, sqrt_spec. unfold SF64sqrt.
  destruct (Prim2SF a) as [s | s | | s m e]; simpl; trivial.
  - destruct s; simpl; trivial.
  - destruct s; simpl; trivial.
    destruct (SFsqrt_core_binary _ _ _ _) as [[mz ez] lz].
    apply sf_signed_nonneg, binary_round_aux_signed.
Qed.

Lemma SF2Prim_nonneg (x : spec_float) : sf_signed false x -> nonneg (SF2Prim x).
Proof.
  destruct x as [s | s | | s m e]; simpl; intros H; subst; try reflexivity.
  apply nonneg_spec. rewrite Z_ldexp_spec, of_uint63_spec.
  assert (Hs : sf_nonneg (binary_normalize prec emax
                            (Uint63.to_Z (Uint63.of_Z (Z.pos m))) 0 false)).
  { apply binary_normalize_nonneg. apply Uint63.to_Z_bounded. }
  destruct (binary_normalize _ _ _ _ _) as [s | s | | s m' e']; simpl in *; trivial.
  subst. apply sf_signed_nonneg, binary_round_signed.
Qed.

Lemma SFcompare_refl (x : spec_float) :
  x <> S754_nan -> SFcompare x x = Some Eq.
Proof.
  destruct x as [s | s | | s m e]; simpl; intros H; try reflexivity.
  - destruct s; reflexivity.
  - contradiction.
  - rewrite Z.compare_refl.
    change (Pos.compare_cont Eq m m) with (Pos.compare m m).
    rewrite Pos.compare_refl. destruct s; reflexivity.
Qed.

Lemma is_nan_true (v : float) : is_nan v = true -> v = nan.
Proof.
  unfold is_nan. rewrite eqb_spec. intros H. apply Prim2SF_inj.
  change (Prim2SF nan) with S754_nan.
  destruct (Prim2SF v) as [s | s | | s m e] eqn:E; trivial; exfalso;
    unfold SFeqb in H; rewrite SFcompare_refl in H by discriminate;
    discriminate H.
Qed.

Lemma float_mul_comm (a b : float) : (a * b = b * a)%float.
Proof.
  apply Prim2SF_inj. rewrite !mul_spec. unfold SF64mul.
  destruct (Prim2SF a) as [sa | sa | | sa ma ea],
           (Prim2SF b) as [sb | sb | | sb mb eb]; simpl; try reflexivity;
    rewrite (xorb_comm sa sb); try reflexivity.
  rewrite (Pos.mul_comm ma mb), (Z.add_comm ea eb). reflexivity.
Qed.

(** ** IEEE 754 facts: magnitudes, products of square roots, quotients *)

Section Magnitude.
Local Open Scope Z_scope.

Section Digits.
Lemma digits2_pos_size (p : positive) : digits2_pos p = Pos.size p.
Proof. induction p as [p IH | p IH |]; simpl; congruence. Qed.

Lemma Zdigits2_log2 (m : Z) : 0 < m -> Zdigits2 m = Z.log2 m + 1.
Proof.
  destruct m as [| p | p]; try lia. intros _. simpl.
  rewrite digits2_pos_size. destruct p as [p | p |]; simpl; lia.
Qed.

Lemma Zdigits2_pos (m : Z) : 0 < m -> 1 <= Zdigits2 m.
Proof.
  intros H. rewrite (Zdigits2_log2 m H). pose proof (Z.log2_nonneg m). lia.
Qed.

Lemma Zdigits2_mono (a b : Z) : 0 < a -> a <= b -> Zdigits2 a <= Zdigits2 b.
Proof.
  intros Ha Hab. rewrite !Zdigits2_log2 by lia.
  pose proof (Z.log2_le_mono a b Hab). lia.
Qed.

Lemma Zdigits2_mul (a b : Z) :
  0 < a -> 0 < b -> Zdigits2 a + Zdigits2 b - 1 <= Zdigits2 (a * b).
Proof.
  intros Ha Hb. rewrite !Zdigits2_log2 by lia.
  pose proof (Z.log2_mul_below a b Ha Hb). lia.
Qed.
End Digits.

Section Shifts.
Lemma shr_1_m (mrs : shr_record) :
  0 <= shr_m mrs -> shr_m (shr_1 mrs) = shr_m mrs / 2.
Proof.
  rewrite <- Z.div2_div. destruct mrs as [m r s]. simpl.
  destruct m as [| p | p]; [reflexivity | destruct p; reflexivity | lia].
Qed.

Lemma pow2_xI (p : positive) : 2 ^ Z.pos p~1 = 2 * (2 ^ Z.pos p * 2 ^ Z.pos p).
Proof.
  assert (E : Z.pos p~1 = 1 + (Z.pos p + Z.pos p)) by lia.
  rewrite E, !Z.pow_add_r by lia. reflexivity.
Qed.

Lemma pow2_xO (p : positive) : 2 ^ Z.pos p~0 = 2 ^ Z.pos p * 2 ^ Z.pos p.
Proof.
  assert (E : Z.pos p~0 = Z.pos p + Z.pos p) by lia.
  rewrite E, Z.pow_add_r by lia. reflexivity.
Qed.

Lemma iter_shr_m (p : positive) :
  forall mrs, 0 <= shr_m mrs ->
              shr_m (iter_pos shr_1 p mrs) = shr_m mrs / 2 ^ Zpos p.
Proof.
  induction p as [p IH | p IH |]; intros mrs H; simpl iter_pos.
  - assert (H1 : 0 <= shr_m (shr_1 mrs)).
    { rewrite shr_1_m by exact H. apply Z.div_pos; lia. }
    assert (H2 : 0 <= shr_m (iter_pos shr_1 p (shr_1 mrs))).
    { rewrite IH by exact H1. apply Z.div_pos; [exact H1 | lia]. }
    rewrite IH by exact H2. rewrite IH by exact H1. rewrite shr_1_m by exact H.
    rewrite pow2_xI.
    assert (P : 0 < 2 ^ Z.pos p) by lia.
    rewrite !Z.div_div by lia. reflexivity.
  - assert (H2 : 0 <= shr_m (iter_pos shr_1 p mrs)).
    { rewrite IH by exact H. apply Z.div_pos; [exact H | lia]. }
    rewrite IH by exact H2. rewrite IH by exact H.
    rewrite pow2_xO.
    assert (P : 0 < 2 ^ Z.pos p) by lia.
    rewrite !Z.div_div by lia. reflexivity.
  - rewrite shr_1_m by exact H. reflexivity.
Qed.

Lemma shr_record_of_loc_m (m : Z) (l : location) :
  shr_m (shr_record_of_loc m l) = m.
Proof. destruct l as [| []]; reflexivity. Qed.

(** Shifting a positive mantissa to its format: the mantissa stays
    positive and digits plus exponent is kept, as long as the magnitude is
    above the smallest positive float. *)
Lemma shr_fexp_mag (mx ex : Z) (lx : location) :
  0 < mx -> -1073 <= Zdigits2 mx + ex ->
  0 < shr_m (fst (shr_fexp prec emax mx ex lx)) /\
  Zdigits2 (shr_m (fst (shr_fexp prec emax mx ex lx)))
  + snd (shr_fexp prec emax mx ex lx) = Zdigits2 mx + ex /\
  -1074 <= snd (shr_fexp prec emax mx ex lx).
Proof.
  intros Hm HD. unfold shr_fexp, shr.
  pose proof (Zdigits2_log2 mx Hm) as Hd.
  pose proof (Z.log2_nonneg mx) as Hl.
  assert (Hf : fexp prec emax (Zdigits2 mx + ex)
               = Z.max (Zdigits2 mx + ex - 53) (-1074)) by reflexivity.
  destruct (fexp prec emax (Zdigits2 mx + ex) - ex) as [| n | n] eqn:En;
    simpl fst; simpl snd; rewrite ?shr_record_of_loc_m.
  - repeat split; lia.
  - rewrite iter_shr_m by (rewrite shr_record_of_loc_m; lia).
    rewrite shr_record_of_loc_m.
    assert (Hn : Z.pos n <= Z.log2 mx) by lia.
    rewrite <- Z.shiftr_div_pow2 by lia.
    assert (Hs : 0 < Z.shiftr mx (Z.pos n)).
    { destruct (Z.shiftr_eq_0_iff mx (Z.pos n)) as [F _].
      pose proof (Z.shiftr_nonneg mx (Z.pos n)) as N.
      assert (Z.shiftr mx (Z.pos n) <> 0) by (intros E; apply F in E; lia).
      lia. }
    repeat split; [exact Hs | | lia].
    rewrite (Zdigits2_log2 _ Hs), Z.log2_shiftr by exact Hm. lia.
  - repeat split; lia.
Qed.

Lemma round_nearest_even_ge (m : Z) (l : location) :
  0 < m -> m <= round_nearest_even m l.
Proof.
  intros H. destruct l as [| []]; simpl; try lia.
  destruct (Z.even m); lia.
Qed.

(** Rounding a positive mantissa of magnitude at least [2 ^ (B - 1)],
    at or above the smallest positive float, keeps that magnitude. *)
Lemma binary_round_aux_mag (B : Z) (sx : bool) (mx ex : Z) (lx : location) :
  0 < mx -> -1073 <= B -> B <= Zdigits2 mx + ex ->
  sf_mag_ge B (binary_round_aux prec emax sx mx ex lx).
Proof.
  intros Hm HB HD. unfold binary_round_aux.
  destruct (shr_fexp_mag mx ex lx Hm) as (H1 & H2 & H3); [lia |].
  destruct (shr_fexp prec emax mx ex lx) as [mrs' e']. simpl in H1, H2, H3.
  set (m2 := round_nearest_even (shr_m mrs') (loc_of_shr_record mrs')).
  pose proof (round_nearest_even_ge (shr_m mrs') (loc_of_shr_record mrs') H1)
    as Hr. fold m2 in Hr.
  assert (Hm2 : 0 < m2) by lia.
  pose proof (Zdigits2_mono _ _ H1 Hr) as Hd2.
  pose proof (Zdigits2_pos m2 Hm2) as Hp2.
  destruct (shr_fexp_mag m2 e' loc_Exact Hm2) as (K1 & K2 & K3); [lia |].
  destruct (shr_fexp prec emax m2 e' loc_Exact) as [mrs'' e''].
  simpl in K1, K2, K3.
  destruct (shr_m mrs'') as [| m | m]; try lia.
  destruct (e'' <=? emax - prec); unfold sf_mag_ge; [lia | exact I].
Qed.
End Shifts.

Section SquareRoots.
(** The exponent of a valid finite float is at least the smallest one. *)
Lemma valid_binary_exponent (s : bool) (m : positive) (e : Z) :
  valid_binary (S754_finite s m e) = true -> -1074 <= e.
Proof.
  simpl. unfold bounded, canonical_mantissa. intros H.
  apply andb_prop in H as [H _]. apply Z.eqb_eq in H.
  assert (Hf : fexp prec emax (Z.pos (digits2_pos m) + e)
               = Z.max (Z.pos (digits2_pos m) + e - 53) (-1074)) by reflexivity.
  lia.
Qed.

(** The integer square root of the core of [sqrt] is positive and its
    magnitude is at least [2 ^ -537], the root of the smallest float. *)
Lemma SFsqrt_core_mag (m : positive) (e : Z) :
  -1074 <= e ->
  0 < fst (fst (SFsqrt_core_binary prec emax (Z.pos m) e)) /\
  -536 <= Zdigits2 (fst (fst (SFsqrt_core_binary prec emax (Z.pos m) e)))
          + snd (fst (SFsqrt_core_binary prec emax (Z.pos m) e)).
Proof.
  intros He. unfold SFsqrt_core_binary.
  set (d := Zdigits2 (Z.pos m)).
  set (e' := Z.min (fexp prec emax (Z.div2 (d + e + 1))) (Z.div2 e)).
  assert (He' : 2 * e' <= e).
  { pose proof (Z.le_min_r (fexp prec emax (Z.div2 (d + e + 1))) (Z.div2 e)).
    fold e' in H. rewrite Z.div2_div in H.
    pose proof (Z.mul_div_le e 2). lia. }
  set (s := e - 2 * e').
  set (m' := match s with
             | 0 => Z.pos m
             | Z.pos _ => Z.shiftl (Z.pos m) s
             | Z.neg _ => 0
             end).
  assert (Hm' : m' = Z.pos m * 2 ^ s).
  { unfold m'. destruct s as [| p | p] eqn:Es; try lia.
    apply Z.shiftl_mul_pow2. lia. }
  assert (Hs : 0 <= s) by (unfold s; lia).
  pose proof (Z.sqrtrem_spec m') as Hq.
  destruct (Z.sqrtrem m') as [q r]. simpl fst. simpl snd.
  assert (Hp : 0 < 2 ^ s) by (apply Z.pow_pos_nonneg; lia).
  assert (Hm0 : 0 <= m') by (rewrite Hm'; lia).
  destruct (Hq Hm0) as [Hqr Hr].
  set (k := s / 2).
  assert (Hk : 0 <= k) by (apply Z.div_pos; lia).
  assert (Hk2 : 2 * k <= s) by (apply Z.mul_div_le; lia).
  assert (Hq2 : 2 ^ k <= q).
  { destruct (Z_le_gt_dec (2 ^ k) q) as [L | G]; [exact L | exfalso].
    assert (P1 : 0 < 2 ^ k) by (apply Z.pow_pos_nonneg; lia).
    assert (P2 : 2 ^ k * 2 ^ k <= 2 ^ s).
    { rewrite <- Z.pow_add_r by lia. apply Z.pow_le_mono_r; lia. }
    assert (P3 : 2 ^ s <= m') by (rewrite Hm'; nia).
    nia. }
  assert (Hq0 : 0 < q).
  { assert (0 < 2 ^ k) by (apply Z.pow_pos_nonneg; lia). lia. }
  split; [exact Hq0 |].
  rewrite (Zdigits2_log2 q Hq0).
  assert (Hl : k <= Z.log2 q) by (apply Z.log2_le_pow2; assumption).
  assert (Ek : k = e / 2 - e').
  { unfold k, s. replace (e - 2 * e') with (e + (- e') * 2) by lia.
    rewrite Z.div_add by lia. lia. }
  assert (E2 : -537 <= e / 2) by (apply Z.div_le_lower_bound; lia).
  lia.
Qed.

(** Away from zero after a square root: the root of a valid float is
    not-a-number, a zero, an infinity, or at least [2 ^ -537]. *)
Lemma SFsqrt_away (x : spec_float) :
  valid_binary x = true ->
  match SFsqrt prec emax x with
  | S754_zero _ => True
  | y => sf_away (-536) y
  end.
Proof.
  intros V. destruct x as [s | s | | s m e]; simpl; trivial.
  - destruct s; simpl; trivial.
  - destruct s; simpl; trivial.
    destruct (SFsqrt_core_mag m e (valid_binary_exponent _ _ _ V))
      as [Hq Hd].
    destruct (SFsqrt_core_binary prec emax (Z.pos m) e) as [[mz ez] lz].
    simpl in Hq, Hd.
    pose proof (binary_round_aux_mag (-536) false mz ez lz Hq) as R.
    destruct (binary_round_aux prec emax false mz ez lz);
      simpl in R |- *; try (apply R; lia); trivial.
Qed.

Lemma sf_mag_ge_away (B : Z) (x : spec_float) : sf_mag_ge B x -> sf_away B x.
Proof. destruct x; simpl; trivial. Qed.

(** The product of two floats that are away from zero by [2 ^ -537] is
    not a zero. *)
Lemma SFmul_away (x y : spec_float) :
  sf_away (-536) x -> sf_away (-536) y ->
  sf_away (-1073) (SFmul prec emax x y).
Proof.
  destruct x as [sx | sx | | sx mx ex], y as [sy | sy | | sy my ey];
    cbn [SFmul sf_away sf_mag_ge]; trivial; try contradiction.
  intros Hx Hy. apply sf_mag_ge_away, binary_round_aux_mag; try lia.
  pose proof (Zdigits2_mul (Z.pos mx) (Z.pos my)).
  change (Z.pos (mx * my)) with (Z.pos mx * Z.pos my). lia.
Qed.
End SquareRoots.

Lemma sf_away_not_zero (B : Z) (x : spec_float) :
  sf_away B x -> SFeqb x (S754_zero false) = false.
Proof.
  destruct x as [s | s | | s m e]; simpl; try contradiction; intros _;
    unfold SFeqb; simpl; try destruct s; reflexivity.
Qed.

(** The product of two square roots that are not zero is not zero: it
    cannot underflow, a root being at least [2 ^ -537]. *)
Lemma sqrt_mul_nonzero (v1 v2 : float) :
  (sqrt v1 =? 0)%float = false ->
  (sqrt v2 =? 0)%float = false ->
  (sqrt v1 * sqrt v2 =? 0)%float = false.
Proof.
  intros H1 H2.
  apply eqb_zero_false_spec in H1. apply eqb_zero_false_spec in H2.
  rewrite eqb_spec, mul_spec. change (Prim2SF 0) with (S754_zero false).
  rewrite sqrt_spec in H1, H2 |- *. rewrite sqrt_spec.
  unfold SF64mul, SF64sqrt in *.
  pose proof (SFsqrt_away (Prim2SF v1) (Prim2SF_valid v1)) as A1.
  pose proof (SFsqrt_away (Prim2SF v2) (Prim2SF_valid v2)) as A2.
  apply (sf_away_not_zero (-1073)). apply SFmul_away.
  - destruct (SFsqrt prec emax (Prim2SF v1)); trivial; contradiction.
  - destruct (SFsqrt prec emax (Prim2SF v2)); trivial; contradiction.
Qed.

(** The IEEE division of a finite mantissa by itself is exact. *)
Lemma SFdiv_core_self (m : positive) (e : Z) :
  SFdiv_core_binary prec emax (Z.pos m) e (Z.pos m) e
  = (2 ^ 53, -53, loc_Exact).
Proof.
  unfold SFdiv_core_binary. cbv zeta. rewrite !Z.sub_diag.
  change (Z.min (fexp prec emax 0) 0) with (-53).
  change (0 - -53) with 53. cbv iota.
  rewrite Z.shiftl_mul_pow2 by lia.
  rewrite (surjective_pairing (Z.div_eucl (Z.pos m * 2 ^ 53) (Z.pos m))).
  change (fst (Z.div_eucl (Z.pos m * 2 ^ 53) (Z.pos m)))
    with ((Z.pos m * 2 ^ 53) / Z.pos m).
  change (snd (Z.div_eucl (Z.pos m * 2 ^ 53) (Z.pos m)))
    with ((Z.pos m * 2 ^ 53) mod Z.pos m).
  rewrite (Z.mul_comm (Z.pos m)), Z.div_mul, Z.mod_mul by lia.
  unfold new_location, new_location_even, new_location_odd.
  destruct (Z.even (Z.pos m)); reflexivity.
Qed.

(** A finite float other than zero divided by itself is exactly 1.0. *)
Lemma float_div_self (x : float) :
  (x =? 0)%float = false -> is_nan x = false -> is_infinity x = false ->
  (x / x)%float = 1%float.
Proof.
  intros Hz Hn Hi. apply Prim2SF_inj. rewrite div_spec.
  apply eqb_zero_false_spec in Hz.
  unfold is_nan in Hn. rewrite eqb_spec in Hn.
  unfold is_infinity in Hi. rewrite eqb_spec, abs_spec in Hi.
  assert (P1 : Prim2SF 1 = S754_finite false 4503599627370496 (-52))
    by (vm_compute; reflexivity).
  rewrite P1. unfold SF64div.
  destruct (Prim2SF x) as [s | s | | s m e].
  - contradiction.
  - discriminate Hi.
  - discriminate Hn.
  - cbn [SFdiv]. rewrite SFdiv_core_self, xorb_nilpotent.
    vm_compute. reflexivity.
Qed.
End Magnitude.

(** ** Squares, conversions and results that are never negative *)

(** Whenever [v ** 2] is computed it is not negative. *)
Lemma float_pow2_nonneg (v q : float) :
  float_pow2 v = Return q -> nonneg q.
Proof.
  unfold float_pow2.
  destruct (is_nan v) eqn:En.
  { intros H. injection H as <-. apply is_nan_true in En. subst v.
    reflexivity. }
  destruct (is_infinity v).
  { intros H. injection H as <-. apply nonneg_abs. }
  destruct (v =? 0)%float.
  { intros H. injection H as <-. reflexivity. }
  cbv zeta.
  destruct (abs v =? 1)%float.
  { intros H. injection H as <-. reflexivity. }
  destruct (is_infinity (abs v * abs v)); intros H; [discriminate H |].
  injection H as <-. apply nonneg_square.
Qed.

Lemma float_of_int_Return (z : Z) (f : float) :
  float_of_int z = Return f ->
  f = SF2Prim (binary_normalize prec emax z 0 false).
Proof.
  unfold float_of_int. cbv zeta.
  destruct (is_infinity _); intros H; [discriminate H |].
  injection H as <-. reflexivity.
Qed.

Lemma float_of_int_nonneg (z : Z) (f : float) :
  (0 <= z)%Z -> float_of_int z = Return f -> nonneg f.
Proof.
  intros Hz H. apply float_of_int_Return in H. subst f.
  apply SF2Prim_nonneg. destruct z as [| p | p]; simpl.
  - exact eq_refl.
  - apply binary_round_signed.
  - lia.
Qed.

Lemma nonneg_zero : nonneg 0%float.
Proof. reflexivity. Qed.

Lemma len_nonneg {A : Type} (l : list A) : (0 <= len l)%Z.
Proof. unfold len. lia. Qed.

Lemma len_cons_pos {A : Type} (x : A) (l : list A) : (1 <= len (x :: l))%Z.
Proof. unfold len. simpl List.length. lia. Qed.

Lemma average_Return_nonempty (data : list number) (mu : float) :
  average data = Return mu -> data <> [].
Proof. intros H ->. discriminate H. Qed.

Lemma devsq_loop_nonneg (mu : float) (data : list number) :
  forall tot d,
    nonneg tot -> devsq_loop mu data tot = Return d -> nonneg d.
Proof.
  induction data as [| x rest IH]; intros tot d Ht H; simpl in H.
  - injection H as <-. exact Ht.
  - apply bind_inv_Return in H as [dx [_ H]].
    apply bind_inv_Return in H as [q [Hq H]].
    apply (IH _ _ (nonneg_add _ _ Ht (float_pow2_nonneg _ _ Hq)) H).
Qed.

Lemma avgdev_loop_nonneg (mu : float) (data : list number) :
  forall tot d,
    nonneg tot -> avgdev_loop mu data tot = Return d -> nonneg d.
Proof.
  induction data as [| x rest IH]; intros tot d Ht H; simpl in H.
  - injection H as <-. exact Ht.
  - apply bind_inv_Return in H as [dx [_ H]].
    apply (IH _ _ (nonneg_add _ _ Ht (nonneg_abs dx)) H).
Qed.

Lemma devsq_nonneg (data : list number) (d : float) :
  devsq data = Return d -> nonneg d.
Proof.
  unfold devsq. intros H. apply bind_inv_Return in H as [mu [_ H]].
  exact (devsq_loop_nonneg mu data _ _ nonneg_zero H).
Qed.

Lemma variance_nonneg (data : list number) (is_sample : bool) (v : float) :
  variance data is_sample = Return v -> nonneg v.
Proof.
  intros H.
  apply variance_Return_inv in H as (mu & ds & d & Hmu & Hds & Hd & Hz & ->).
  apply nonneg_div.
  - exact (devsq_loop_nonneg mu data _ _ nonneg_zero Hds).
  - apply (float_of_int_nonneg _ _) in Hd; [exact Hd |].
    apply average_Return_nonempty in Hmu.
    destruct data as [| x rest]; [contradiction |].
    pose proof (len_cons_pos x rest). destruct is_sample; lia.
  - exact Hz.
Qed.

Lemma avgdev_nonneg (data : list number) (r : float) :
  avgdev data = Return r -> nonneg r.
Proof.
  unfold avgdev. destruct (len data =? 0)%Z; [discriminate |]. intros H.
  apply bind_inv_Return in H as [mu [_ H]].
  apply bind_inv_Return in H as [tot [Htot H]].
  apply bind_inv_Return in H as [d [Hd H]].
  apply bind_inv_Return in H as [q [Hq H]].
  injection H as <-.
  unfold num_truediv, to_float in Hq.
  apply bind_inv_Return in Hq as [one [Hone Hq]].
  apply float_truediv_Return_inv in Hq as [Hz ->].
  apply nonneg_mul.
  - apply nonneg_div; [| | exact Hz].
    + apply (float_of_int_nonneg 1); [lia | exact Hone].
    + apply (float_of_int_nonneg (len data)); [apply len_nonneg | exact Hd].
  - exact (avgdev_loop_nonneg mu data _ _ nonneg_zero Htot).
Qed.

(** ** The arithmetic raises ZeroDivisionError or OverflowError only *)

Lemma arithmetic_error_ZeroDivision : arithmetic_error ZeroDivisionError.
Proof. left. reflexivity. Qed.

Lemma arithmetic_error_Overflow : arithmetic_error OverflowError.
Proof. right. reflexivity. Qed.

Lemma arithmetic_error_not_Exception (msg : string) :
  ~ arithmetic_error (Exception msg).
Proof. intros [H | H]; discriminate H. Qed.

Lemma arithmetic_error_module_error (e : exn) :
  arithmetic_error e -> module_error e.
Proof. intros H. do 4 right. exact H. Qed.

Create HintDb arith.

#[local] Hint Resolve only_raises_Return only_raises_Raise only_raises_if
  only_raises_bind arithmetic_error_ZeroDivision arithmetic_error_Overflow
  : arith.

Section ArithmeticErrors.
Lemma float_of_int_arith (z : Z) : only_raises (float_of_int z) arithmetic_error.
Proof. unfold float_of_int. auto with arith. Qed.

Lemma to_float_arith (n : number) : only_raises (to_float n) arithmetic_error.
Proof. destruct n; simpl; auto using float_of_int_arith with arith. Qed.

Lemma float_truediv_arith (a b : float) :
  only_raises (float_truediv a b) arithmetic_error.
Proof. unfold float_truediv. auto with arith. Qed.

Lemma float_pow2_arith (v : float) : only_raises (float_pow2 v) arithmetic_error.
Proof. unfold float_pow2. auto 10 with arith. Qed.

Lemma num_add_arith (a b : number) : only_raises (num_add a b) arithmetic_error.
Proof. destruct a, b; simpl; auto using float_of_int_arith with arith. Qed.

Lemma num_truediv_arith (a : number) (b : float) :
  only_raises (num_truediv a b) arithmetic_error.
Proof.
  unfold num_truediv. auto using to_float_arith, float_truediv_arith with arith.
Qed.

Lemma num_sub_arith (a : number) (b : float) :
  only_raises (num_sub a b) arithmetic_error.
Proof. unfold num_sub. auto using to_float_arith with arith. Qed.

Lemma sum_from_arith (data : list number) :
  forall acc, only_raises (sum_from acc data) arithmetic_error.
Proof.
  induction data as [| x rest IH]; intros acc; simpl;
    auto using num_add_arith with arith.
Qed.
End ArithmeticErrors.

#[local] Hint Resolve float_of_int_arith to_float_arith float_truediv_arith
  float_pow2_arith num_add_arith num_truediv_arith num_sub_arith
  sum_from_arith : arith.

Section CheckedArguments.
Lemma avgdev_loop_arith (mu : float) (data : list number) :
  forall tot, only_raises (avgdev_loop mu data tot) arithmetic_error.
Proof.
  induction data as [| x rest IH]; intros tot; simpl; auto with arith.
Qed.

Lemma devsq_loop_arith (mu : float) (data : list number) :
  forall tot, only_raises (devsq_loop mu data tot) arithmetic_error.
Proof.
  induction data as [| x rest IH]; intros tot; simpl; auto with arith.
Qed.

Lemma sumdev_loop_arith (mu1 mu2 : float) (pairs : list (number * number)) :
  forall tot, only_raises (sumdev_loop mu1 mu2 pairs tot) arithmetic_error.
Proof.
  induction pairs as [| [x y] rest IH]; intros tot; simpl; auto with arith.
Qed.

Lemma average_arith (data : list number) :
  data <> [] -> only_raises (average data) arithmetic_error.
Proof.
  intros Hne. unfold average, sum. rewrite (len_nonempty data Hne).
  auto with arith.
Qed.

Lemma avgdev_arith (data : list number) :
  data <> [] -> only_raises (avgdev data) arithmetic_error.
Proof.
  intros Hne. unfold avgdev. rewrite (len_nonempty data Hne).
  auto 10 using average_arith, avgdev_loop_arith with arith.
Qed.

Lemma devsq_arith (data : list number) :
  data <> [] -> only_raises (devsq data) arithmetic_error.
Proof.
  intros Hne. unfold devsq. auto using average_arith, devsq_loop_arith with arith.
Qed.

Lemma variance_arith (data : list number) (is_sample : bool) :
  data <> [] -> only_raises (variance data is_sample) arithmetic_error.
Proof.
  intros Hne. unfold variance. rewrite (len_nonempty data Hne).
  auto 10 using average_arith, devsq_arith with arith.
Qed.

Lemma sumdev_arith (array1 array2 : list number) :
  array1 <> [] -> array2 <> [] -> List.length array1 = List.length array2 ->
  only_raises (sumdev array1 array2) arithmetic_error.
Proof.
  intros H1 H2 Hlen. unfold sumdev.
  rewrite (empty_check_false _ _ H1 H2), (length_check_false _ _ Hlen).
  auto using average_arith, sumdev_loop_arith with arith.
Qed.

Lemma covar_arith (array1 array2 : list number) :
  array1 <> [] -> array2 <> [] -> List.length array1 = List.length array2 ->
  only_raises (covar array1 array2) arithmetic_error.
Proof.
  intros H1 H2 Hlen. unfold covar.
  rewrite (empty_check_false _ _ H1 H2), (length_check_false _ _ Hlen).
  auto using sumdev_arith with arith.
Qed.

Lemma slope_arith (known_y known_x : list number) :
  known_y <> [] -> known_x <> [] ->
  List.length known_y = List.length known_x ->
  only_raises (slope known_y known_x) arithmetic_error.
Proof.
  intros Hy Hx Hlen. unfold slope.
  auto using sumdev_arith, devsq_arith, eq_sym with arith.
Qed.

Lemma intercept_arith (known_y known_x : list number) :
  known_y <> [] -> known_x <> [] ->
  List.length known_y = List.length known_x ->
  only_raises (intercept known_y known_x) arithmetic_error.
Proof.
  intros Hy Hx Hlen. unfold intercept.
  auto 10 using average_arith, slope_arith with arith.
Qed.
End CheckedArguments.

Lemma standard_deviation_eq (data : list number) (is_sample : bool) :
  standard_deviation data is_sample =
  (v <- variance data is_sample ;; Return (sqrt v)).
Proof.
  unfold standard_deviation, var, varp.
  destruct is_sample; destruct (variance data _) as [v | e] eqn:Ev; simpl;
    trivial; unfold math_sqrt;
    rewrite (variance_nonneg _ _ _ Ev); reflexivity.
Qed.

Section CheckedCorrelation.
Variables array1 array2 : list number.
Hypothesis Hne1 : array1 <> [].
Hypothesis Hne2 : array2 <> [].
Hypothesis Hlen : List.length array1 = List.length array2.

Lemma standard_deviation_arith (is_sample : bool) :
  only_raises (standard_deviation array1 is_sample) arithmetic_error.
Proof.
  rewrite standard_deviation_eq. auto using variance_arith with arith.
Qed.

Lemma correl_arith :
  only_raises (correl array1 array2)
    (fun e => arithmetic_error e \/ e = Exception msg_zero_stdev).
Proof.
  unfold correl.
  rewrite (empty_check_false _ _ Hne1 Hne2), (length_check_false _ _ Hlen).
  assert (L : forall m : result float,
             only_raises m arithmetic_error ->
             only_raises m
               (fun e => arithmetic_error e \/ e = Exception msg_zero_stdev)).
  { intros m. apply only_raises_mono. intros e He. left. exact He. }
  unfold stdevp.
  rewrite !standard_deviation_eq.
  apply only_raises_bind; [apply L; auto using variance_arith with arith |].
  intros stdev1.
  apply only_raises_bind; [apply L; auto using variance_arith with arith |].
  intros stdev2.
  apply only_raises_if; [apply only_raises_Raise; right; reflexivity |].
  apply L. auto using covar_arith with arith.
Qed.
End CheckedCorrelation.

(** ** What a returning function tells about its parts *)

Lemma average_Return_inv (data : list number) (mu : float) :
  average data = Return mu ->
  data <> [] /\
  exists d, float_of_int (len data) = Return d /\ (d =? 0)%float = false.
Proof.
  intros H. split; [exact (average_Return_nonempty _ _ H) |].
  unfold average in H. destruct (len data =? 0)%Z; [discriminate H |].
  apply bind_inv_Return in H as [s [_ H]].
  apply bind_inv_Return in H as [d [Hd H]].
  unfold num_truediv in H. apply bind_inv_Return in H as [x [_ H]].
  apply float_truediv_Return_inv in H as [Hz _].
  exists d. split; assumption.
Qed.

Lemma sumdev_Return_inv (array1 array2 : list number) (t : float) :
  sumdev array1 array2 = Return t ->
  array1 <> [] /\ array2 <> [] /\
  List.length array1 = List.length array2 /\
  exists mu1 mu2,
    average array1 = Return mu1 /\
    average array2 = Return mu2 /\
    sumdev_loop mu1 mu2 (combine array1 array2) 0%float = Return t.
Proof.
  unfold sumdev.
  destruct (len array1 =? 0)%Z eqn:E1; [discriminate |].
  destruct (len array2 =? 0)%Z eqn:E2; [discriminate |].
  destruct (len array1 =? len array2)%Z eqn:E; [| discriminate].
  simpl. intros H.
  apply bind_inv_Return in H as [mu1 [Hmu1 H]].
  apply bind_inv_Return in H as [mu2 [Hmu2 H]].
  split; [exact (average_Return_nonempty _ _ Hmu1) |].
  split; [exact (average_Return_nonempty _ _ Hmu2) |].
  split; [apply len_eqb_iff; exact E |].
  exists mu1, mu2. auto.
Qed.

Lemma sumdev_checked (array1 array2 : list number) (mu1 mu2 : float) :
  List.length array1 = List.length array2 ->
  average array1 = Return mu1 ->
  average array2 = Return mu2 ->
  sumdev array1 array2 = sumdev_loop mu1 mu2 (combine array1 array2) 0%float.
Proof.
  intros Hlen H1 H2. unfold sumdev.
  rewrite (empty_check_false _ _ (average_Return_nonempty _ _ H1)
             (average_Return_nonempty _ _ H2)).
  rewrite (length_check_false _ _ Hlen), H1, H2. reflexivity.
Qed.

Lemma covar_checked (array1 array2 : list number) :
  array1 <> [] -> array2 <> [] ->
  List.length array1 = List.length array2 ->
  covar array1 array2 =
  (s <- sumdev array1 array2 ;;
   d <- float_of_int (len array1) ;;
   float_truediv s d).
Proof.
  intros H1 H2 Hlen. unfold covar.
  rewrite (empty_check_false _ _ H1 H2), (length_check_false _ _ Hlen).
  reflexivity.
Qed.

(** ** Symmetry and self-covariance of the deviation products *)

Lemma sumdev_loop_sym (mu1 mu2 : float) (array1 : list number) :
  forall array2 tot r,
    sumdev_loop mu1 mu2 (combine array1 array2) tot = Return r ->
    sumdev_loop mu2 mu1 (combine array2 array1) tot = Return r.
Proof.
  induction array1 as [| x rest1 IH]; intros array2 tot r H.
  - destruct array2; exact H.
  - destruct array2 as [| y rest2]; [exact H |].
    simpl in H |- *.
    apply bind_inv_Return in H as [dx [Hx H]].
    apply bind_inv_Return in H as [dy [Hy H]].
    rewrite Hy, Hx. simpl. rewrite (float_mul_comm dy dx).
    apply IH. exact H.
Qed.

Lemma sumdev_sym (array1 array2 : list number) (t : float) :
  sumdev array1 array2 = Return t -> sumdev array2 array1 = Return t.
Proof.
  intros H.
  apply sumdev_Return_inv in H as (_ & _ & Hlen & mu1 & mu2 & H1 & H2 & H).
  rewrite (sumdev_checked array2 array1 mu2 mu1 (eq_sym Hlen) H2 H1).
  apply sumdev_loop_sym. exact H.
Qed.

Lemma covar_Return_inv (array1 array2 : list number) (c : float) :
  covar array1 array2 = Return c ->
  array1 <> [] /\ array2 <> [] /\
  List.length array1 = List.length array2 /\
  exists t d,
    sumdev array1 array2 = Return t /\
    float_of_int (len array1) = Return d /\
    (d =? 0)%float = false /\
    c = (t / d)%float.
Proof.
  unfold covar.
  destruct (len array1 =? 0)%Z eqn:E1; [discriminate |].
  destruct (len array2 =? 0)%Z eqn:E2; [discriminate |].
  destruct (len array1 =? len array2)%Z eqn:E; [| discriminate].
  simpl. intros H.
  apply bind_inv_Return in H as [t [Ht H]].
  apply bind_inv_Return in H as [d [Hd H]].
  apply float_truediv_Return_inv in H as [Hz ->].
  destruct (sumdev_Return_inv _ _ _ Ht) as (H1 & H2 & Hlen & _).
  repeat split; trivial. exists t, d. auto.
Qed.

Lemma covar_sym (array1 array2 : list number) (c : float) :
  covar array1 array2 = Return c -> covar array2 array1 = Return c.
Proof.
  intros H.
  apply covar_Return_inv in H
    as (H1 & H2 & Hlen & t & d & Ht & Hd & Hz & ->).
  rewrite (covar_checked _ _ H2 H1 (eq_sym Hlen)).
  rewrite (sumdev_sym _ _ _ Ht). simpl.
  assert (El : len array2 = len array1) by (unfold len; rewrite Hlen; reflexivity).
  rewrite El, Hd. simpl. apply float_truediv_nonzero. exact Hz.
Qed.

Lemma correl_sym (array1 array2 : list number) (r : float) :
  correl array1 array2 = Return r -> correl array2 array1 = Return r.
Proof.
  unfold correl.
  rewrite (orb_comm (len array2 =? 0)%Z (len array1 =? 0)%Z).
  rewrite (Z.eqb_sym (len array2) (len array1)).
  destruct ((len array1 =? 0)%Z || (len array2 =? 0)%Z)%bool;
    [intros H; discriminate H |].
  destruct (negb (len array1 =? len array2)%Z); [intros H; discriminate H |].
  intros H.
  apply bind_inv_Return in H as [stdev1 [H1 H]].
  apply bind_inv_Return in H as [stdev2 [H2 H]].
  rewrite H2, H1. simpl.
  rewrite (orb_comm (stdev2 =? 0)%float), (float_mul_comm stdev2 stdev1).
  destruct ((stdev1 =? 0)%float || (stdev2 =? 0)%float)%bool; [discriminate H |].
  apply bind_inv_Return in H as [c [Hc H]].
  rewrite (covar_sym _ _ _ Hc). exact H.
Qed.

(** ** The checks decide the module's own exceptions *)

Lemma arithmetic_error_not_EmptyInput (e : exn) :
  arithmetic_error e -> ~ EmptyInputError e.
Proof. intros [-> | ->] [H | H]; discriminate H. Qed.

Lemma arithmetic_error_not_LengthMismatch (e : exn) :
  arithmetic_error e -> ~ LengthMismatchError e.
Proof. intros [-> | ->] H; discriminate H. Qed.

Lemma checked_cases (array1 array2 : list number) :
  (array1 = [] \/ array2 = []) \/
  (array1 <> [] /\ array2 <> [] /\
   List.length array1 <> List.length array2) \/
  (array1 <> [] /\ array2 <> [] /\
   List.length array1 = List.length array2).
Proof.
  destruct array1 as [| x rest1]; [left; left; reflexivity |].
  destruct array2 as [| y rest2]; [left; right; reflexivity |].
  right.
  destruct (Nat.eq_dec (List.length (x :: rest1)) (List.length (y :: rest2)))
    as [E | E]; [right | left]; repeat split; try discriminate; exact E.
Qed.

Section OneSequence.
Variable f : list number -> result float.
Hypothesis f_empty : f [] = Raise (Exception msg_no_points).
Hypothesis f_arith :
  forall data, data <> [] -> only_raises (f data) arithmetic_error.

Lemma one_sequence_empty_iff (data : list number) :
  raises (f data) EmptyInputError <-> data = [].
Proof.
  split.
  - intros [e [He HE]]. destruct data as [| x rest]; [reflexivity |].
    exfalso. apply (arithmetic_error_not_EmptyInput e); [| exact HE].
    apply (f_arith (x :: rest)); [discriminate | exact He].
  - intros ->. rewrite f_empty. apply raises_Raise. left. reflexivity.
Qed.

Lemma one_sequence_module (data : list number) :
  only_raises (f data) module_error.
Proof.
  destruct data as [| x rest].
  - rewrite f_empty. apply only_raises_Raise. left. left. reflexivity.
  - apply (only_raises_mono _ _ _ arithmetic_error_module_error).
    apply f_arith. discriminate.
Qed.
End OneSequence.

Section TwoSequences.
Variable f : list number -> list number -> result float.
Hypothesis f_empty :
  forall a b, a = [] \/ b = [] -> f a b = Raise (Exception msg_empty_args).
Hypothesis f_mismatch :
  forall a b, a <> [] -> b <> [] -> List.length a <> List.length b ->
              f a b = Raise (Exception msg_length).
Hypothesis f_checked :
  forall a b, a <> [] -> b <> [] -> List.length a = List.length b ->
              only_raises (f a b)
                (fun e => arithmetic_error e \/ e = Exception msg_zero_stdev).

Lemma two_sequences_empty_iff (a b : list number) :
  raises (f a b) EmptyInputError <-> a = [] \/ b = [].
Proof.
  split.
  - intros [e [He HE]].
    destruct (checked_cases a b) as [H | [(H1 & H2 & H) | (H1 & H2 & H)]].
    + exact H.
    + rewrite (f_mismatch a b H1 H2 H) in He. injection He as <-.
      destruct HE as [HE | HE]; discriminate HE.
    + destruct (f_checked a b H1 H2 H e He) as [A | ->].
      * destruct (arithmetic_error_not_EmptyInput e A HE).
      * destruct HE as [HE | HE]; discriminate HE.
  - intros H. rewrite (f_empty a b H). apply raises_Raise. right. reflexivity.
Qed.

Lemma two_sequences_mismatch_iff (a b : list number) :
  raises (f a b) LengthMismatchError <->
  a <> [] /\ b <> [] /\ List.length a <> List.length b.
Proof.
  split.
  - intros [e [He HE]].
    destruct (checked_cases a b) as [H | [H | (H1 & H2 & H)]].
    + rewrite (f_empty a b H) in He. injection He as <-. discriminate HE.
    + exact H.
    + destruct (f_checked a b H1 H2 H e He) as [A | ->].
      * destruct (arithmetic_error_not_LengthMismatch e A HE).
      * discriminate HE.
  - intros (H1 & H2 & H). rewrite (f_mismatch a b H1 H2 H).
    apply raises_Raise. reflexivity.
Qed.

Lemma two_sequences_module (a b : list number) :
  only_raises (f a b) module_error.
Proof.
  destruct (checked_cases a b) as [H | [(H1 & H2 & H) | (H1 & H2 & H)]].
  - rewrite (f_empty a b H). apply only_raises_Raise. left. right. reflexivity.
  - rewrite (f_mismatch a b H1 H2 H). apply only_raises_Raise.
    right. left. reflexivity.
  - apply (only_raises_mono module_error
             (fun e => arithmetic_error e \/ e = Exception msg_zero_stdev));
      [| exact (f_checked a b H1 H2 H)].
    intros e [A | ->].
    + apply arithmetic_error_module_error, A.
    + right. right. left. left. reflexivity.
Qed.
End TwoSequences.

Lemma weaken_arith {A : Type} (m : result A) :
  only_raises m arithmetic_error ->
  only_raises m (fun e => arithmetic_error e \/ e = Exception msg_zero_stdev).
Proof. apply only_raises_mono. intros e He. left. exact He. Qed.

Lemma rsq_correl_raises (known_y known_x : list number) (e : exn) :
  correl known_y known_x = Raise e -> rsq known_y known_x = Raise e.
Proof. intros H. unfold rsq. rewrite H. reflexivity. Qed.

Lemma rsq_arith (known_y known_x : list number) :
  known_y <> [] -> known_x <> [] ->
  List.length known_y = List.length known_x ->
  only_raises (rsq known_y known_x)
    (fun e => arithmetic_error e \/ e = Exception msg_zero_stdev).
Proof.
  intros Hy Hx Hlen. unfold rsq.
  apply only_raises_bind; [exact (correl_arith _ _ Hy Hx Hlen) | intros r].
  apply weaken_arith, float_pow2_arith.
Qed.

Lemma slope_empty (known_y known_x : list number) :
  known_y = [] \/ known_x = [] ->
  slope known_y known_x = Raise (Exception msg_empty_args).
Proof.
  intros H. apply slope_sumdev_raises, sumdev_empty.
  destruct H as [H | H]; [right | left]; exact H.
Qed.

Lemma slope_mismatch (known_y known_x : list number) :
  known_y <> [] -> known_x <> [] ->
  List.length known_y <> List.length known_x ->
  slope known_y known_x = Raise (Exception msg_length).
Proof.
  intros Hy Hx H. apply slope_sumdev_raises, sumdev_mismatch; trivial.
  intros E. apply H. symmetry. exact E.
Qed.

Lemma rsq_empty (known_y known_x : list number) :
  known_y = [] \/ known_x = [] ->
  rsq known_y known_x = Raise (Exception msg_empty_args).
Proof. intros H. apply rsq_correl_raises, correl_empty, H. Qed.

Lemma rsq_mismatch (known_y known_x : list number) :
  known_y <> [] -> known_x <> [] ->
  List.length known_y <> List.length known_x ->
  rsq known_y known_x = Raise (Exception msg_length).
Proof. intros Hy Hx H. apply rsq_correl_raises, correl_mismatch; trivial. Qed.

Lemma sumdev_checked_raises (a b : list number) :
  a <> [] -> b <> [] -> List.length a = List.length b ->
  only_raises (sumdev a b)
    (fun e => arithmetic_error e \/ e = Exception msg_zero_stdev).
Proof. intros. apply weaken_arith, sumdev_arith; assumption. Qed.

Lemma covar_checked_raises (a b : list number) :
  a <> [] -> b <> [] -> List.length a = List.length b ->
  only_raises (covar a b)
    (fun e => arithmetic_error e \/ e = Exception msg_zero_stdev).
Proof. intros. apply weaken_arith, covar_arith; assumption. Qed.

Lemma slope_checked_raises (a b : list number) :
  a <> [] -> b <> [] -> List.length a = List.length b ->
  only_raises (slope a b)
    (fun e => arithmetic_error e \/ e = Exception msg_zero_stdev).
Proof. intros. apply weaken_arith, slope_arith; assumption. Qed.

(** X1. The sum of squared deviations is never negative: whenever [devsq]
    returns d, the comparison d < 0 is false (d is zero, positive or
    not-a-number). *)
Theorem devsq_never_negative (data : list number) (d : float) :
  devsq data = Return d -> (d <? 0)%float = false.
Proof.
  intros H. pose proof (devsq_nonneg data d H) as N. exact N.
Qed.

Lemma devsq_never_negative_witness : (2 <? 0)%float = false.
Proof.
  apply (devsq_never_negative example_x 2%float). vm_compute. reflexivity.
Defined.

(** X2. A variance is never negative: whenever [variance], [var] or [varp]
    returns v, the comparison v < 0 is false. *)
Theorem variance_never_negative (data : list number) (v : float) :
  (forall is_sample, variance data is_sample = Return v ->
                     (v <? 0)%float = false) /\
  (var data = Return v -> (v <? 0)%float = false) /\
  (varp data = Return v -> (v <? 0)%float = false).
Proof.
  split; [| split].
  - intros is_sample H. exact (variance_nonneg data is_sample v H).
  - intros H. exact (variance_nonneg data true v H).
  - intros H. exact (variance_nonneg data false v H).
Qed.

Lemma variance_never_negative_witness : (2 / 3 <? 0)%float = false.
Proof.
  apply (proj2 (proj2 (variance_never_negative example_x (2 / 3)%float))).
  vm_compute. reflexivity.
Defined.

(** X3. The square root in [standard_deviation] never fails: the function
    is the variance followed by the IEEE square root, so [stdev] and
    [stdevp] never raise ValueError, fail exactly when the variance fails,
    and return a result that is never negative. *)
Theorem standard_deviation_sqrt_never_fails
  (data : list number) (is_sample : bool) :
  standard_deviation data is_sample =
  (v <- variance data is_sample ;; Return (sqrt v)) /\
  standard_deviation data is_sample <> Raise ValueError /\
  (forall s, standard_deviation data is_sample = Return s ->
             (s <? 0)%float = false).
Proof.
  pose proof (standard_deviation_eq data is_sample) as E.
  split; [exact E | split].
  - destruct data as [| x rest]; [destruct is_sample; discriminate |].
    intros H.
    assert (Hne : x :: rest <> []) by discriminate.
    destruct (standard_deviation_arith _ Hne is_sample _ H) as [A | A];
      discriminate A.
  - intros s Hs. rewrite E in Hs.
    apply bind_inv_Return in Hs as [v [_ Hs]]. injection Hs as <-.
    apply nonneg_sqrt.
Qed.

Lemma standard_deviation_sqrt_never_fails_witness :
  (sqrt (2 / 3) <? 0)%float = false.
Proof.
  apply (proj2 (proj2 (standard_deviation_sqrt_never_fails example_x false))).
  vm_compute. reflexivity.
Defined.

(** X4. The average absolute deviation is never negative: whenever
    [avgdev] returns r, the comparison r < 0 is false. *)
Theorem avgdev_never_negative (data : list number) (r : float) :
  avgdev data = Return r -> (r <? 0)%float = false.
Proof.
  intros H. pose proof (avgdev_nonneg data r H) as N. exact N.
Qed.

Lemma avgdev_never_negative_witness : (2 / 3 <? 0)%float = false.
Proof.
  apply (avgdev_never_negative example_x (2 / 3)%float).
  vm_compute. reflexivity.
Defined.

(** X5. [rsq] is never negative and fails as [correl] does: whenever
    [rsq] returns q, [correl] has returned a value and the comparison
    q < 0 is false; when [correl] raises, [rsq] raises the same
    exception. *)
Theorem rsq_never_negative (known_y known_x : list number) :
  (forall q, rsq known_y known_x = Return q ->
             (exists r, correl known_y known_x = Return r) /\
             (q <? 0)%float = false) /\
  (forall e, correl known_y known_x = Raise e ->
             rsq known_y known_x = Raise e).
Proof.
  split.
  - unfold rsq. intros q H. apply bind_inv_Return in H as [r [Hr H]].
    split; [exists r; exact Hr |].
    exact (float_pow2_nonneg r q H).
  - apply rsq_correl_raises.
Qed.

Lemma rsq_never_negative_witness :
  (exists r, correl example_y example_x = Return r) /\
  (1 <? 0)%float = false.
Proof.
  apply (proj1 (rsq_never_negative example_y example_x) 1%float).
  vm_compute. reflexivity.
Defined.

(** X6. For [average], [avgdev], [devsq], [variance] and
    [standard_deviation], EmptyInputError is raised exactly on the empty
    sequence: a non-empty sequence never makes them raise it. *)
Theorem empty_input_iff_empty_sequence (data : list number) :
  (raises (average data) EmptyInputError <-> data = []) /\
  (raises (avgdev data) EmptyInputError <-> data = []) /\
  (raises (devsq data) EmptyInputError <-> data = []) /\
  (forall is_sample,
      raises (variance data is_sample) EmptyInputError <-> data = []) /\
  (forall is_sample,
      raises (standard_deviation data is_sample) EmptyInputError <-> data = []).
Proof.
  repeat split.
  1, 2: apply (one_sequence_empty_iff average eq_refl average_arith).
  1, 2: apply (one_sequence_empty_iff avgdev eq_refl avgdev_arith).
  1, 2: apply (one_sequence_empty_iff devsq eq_refl devsq_arith).
  1, 2: apply (one_sequence_empty_iff (fun d => variance d is_sample) eq_refl
                 (fun d H => variance_arith d is_sample H)).
  1, 2: apply (one_sequence_empty_iff
                 (fun d => standard_deviation d is_sample));
    [destruct is_sample; reflexivity
    | intros d H; exact (standard_deviation_arith d H is_sample)].
Qed.

(** X7. For [sumdev], [covar], [correl], [pearson], [rsq] and [slope],
    EmptyInputError is raised exactly when one of the two sequences is
    empty. *)
Theorem empty_input_iff_some_empty (array1 array2 : list number) :
  (raises (sumdev array1 array2) EmptyInputError <->
   array1 = [] \/ array2 = []) /\
  (raises (covar array1 array2) EmptyInputError <->
   array1 = [] \/ array2 = []) /\
  (raises (correl array1 array2) EmptyInputError <->
   array1 = [] \/ array2 = []) /\
  (raises (pearson array1 array2) EmptyInputError <->
   array1 = [] \/ array2 = []) /\
  (raises (rsq array1 array2) EmptyInputError <->
   array1 = [] \/ array2 = []) /\
  (raises (slope array1 array2) EmptyInputError <->
   array1 = [] \/ array2 = []).
Proof.
  split; [| split; [| split; [| split; [| split]]]].
  - exact (two_sequences_empty_iff sumdev sumdev_empty sumdev_mismatch
             sumdev_checked_raises array1 array2).
  - exact (two_sequences_empty_iff covar covar_empty covar_mismatch
             covar_checked_raises array1 array2).
  - exact (two_sequences_empty_iff correl correl_empty correl_mismatch
             correl_arith array1 array2).
  - exact (two_sequences_empty_iff correl correl_empty correl_mismatch
             correl_arith array1 array2).
  - exact (two_sequences_empty_iff rsq rsq_empty rsq_mismatch
             rsq_arith array1 array2).
  - exact (two_sequences_empty_iff slope slope_empty slope_mismatch
             slope_checked_raises array1 array2).
Qed.

(** X8. For [sumdev], [covar], [correl], [pearson], [rsq] and [slope],
    LengthMismatchError is raised exactly when both sequences are
    non-empty and their lengths differ. *)
Theorem length_mismatch_iff_lengths_differ (array1 array2 : list number) :
  let differ := array1 <> [] /\ array2 <> [] /\
                List.length array1 <> List.length array2 in
  (raises (sumdev array1 array2) LengthMismatchError <-> differ) /\
  (raises (covar array1 array2) LengthMismatchError <-> differ) /\
  (raises (correl array1 array2) LengthMismatchError <-> differ) /\
  (raises (pearson array1 array2) LengthMismatchError <-> differ) /\
  (raises (rsq array1 array2) LengthMismatchError <-> differ) /\
  (raises (slope array1 array2) LengthMismatchError <-> differ).
Proof.
  cbv zeta. split; [| split; [| split; [| split; [| split]]]].
  - exact (two_sequences_mismatch_iff sumdev sumdev_empty sumdev_mismatch
             sumdev_checked_raises array1 array2).
  - exact (two_sequences_mismatch_iff covar covar_empty covar_mismatch
             covar_checked_raises array1 array2).
  - exact (two_sequences_mismatch_iff correl correl_empty correl_mismatch
             correl_arith array1 array2).
  - exact (two_sequences_mismatch_iff correl correl_empty correl_mismatch
             correl_arith array1 array2).
  - exact (two_sequences_mismatch_iff rsq rsq_empty rsq_mismatch
             rsq_arith array1 array2).
  - exact (two_sequences_mismatch_iff slope slope_empty slope_mismatch
             slope_checked_raises array1 array2).
Qed.

(** ** Intercept and forecast *)

Lemma average_raises_cases (data : list number) (e : exn) :
  average data = Raise e ->
  (data = [] /\ e = Exception msg_no_points) \/
  (data <> [] /\ arithmetic_error e).
Proof.
  intros H. destruct data as [| x rest].
  - left. split; [reflexivity |]. injection H as <-. reflexivity.
  - right. assert (Hne : x :: rest <> []) by discriminate.
    split; [exact Hne | exact (average_arith _ Hne e H)].
Qed.

Lemma intercept_averages (known_y known_x : list number) (muy mux : float) :
  average known_y = Return muy ->
  average known_x = Return mux ->
  intercept known_y known_x =
  (b <- slope known_y known_x ;; Return (muy - b * mux)%float).
Proof. intros Hy Hx. unfold intercept. rewrite Hy, Hx. reflexivity. Qed.

Lemma slope_Return_averages (known_y known_x : list number) (b : float) :
  slope known_y known_x = Return b ->
  exists muy mux,
    average known_y = Return muy /\ average known_x = Return mux.
Proof.
  unfold slope. intros H. apply bind_inv_Return in H as [s [Hs _]].
  apply sumdev_Return_inv in Hs as (_ & _ & _ & mux & muy & Hx & Hy & _).
  exists muy, mux. split; assumption.
Qed.

(** X9. [intercept] raises EmptyInputError exactly when knownY is empty,
    or knownX is empty and the mean of knownY is computed; it raises
    LengthMismatchError exactly when both means are computed and the
    lengths differ. *)
Theorem intercept_check_errors (known_y known_x : list number) :
  (raises (intercept known_y known_x) EmptyInputError <->
   known_y = [] \/ (known_x = [] /\ returns (average known_y) = true)) /\
  (raises (intercept known_y known_x) LengthMismatchError <->
   returns (average known_y) = true /\
   returns (average known_x) = true /\
   List.length known_y <> List.length known_x).
Proof.
  split; split.
  - intros [e [He HE]]. unfold intercept in He.
    destruct (average known_y) as [muy | ey] eqn:Ey; simpl in He.
    + destruct (average known_x) as [mux | ex] eqn:Ex; simpl in He.
      * exfalso.
        apply bind_inv_Raise in He as [He | [b [_ He]]]; [| discriminate He].
        assert (R : raises (slope known_y known_x) EmptyInputError)
          by (exists e; split; assumption).
        apply (two_sequences_empty_iff slope slope_empty slope_mismatch
                 slope_checked_raises) in R.
        destruct R as [-> | ->]; [discriminate Ey | discriminate Ex].
      * injection He as <-.
        destruct (average_raises_cases _ _ Ex) as [[-> _] | [_ A]].
        -- right. split; reflexivity.
        -- destruct (arithmetic_error_not_EmptyInput _ A HE).
    + injection He as <-.
      destruct (average_raises_cases _ _ Ey) as [[-> _] | [_ A]].
      * left. reflexivity.
      * destruct (arithmetic_error_not_EmptyInput _ A HE).
  - intros [-> | [-> H]].
    + apply intercept_empty_y.
    + apply intercept_empty_x, H.
  - intros [e [He HE]]. red in HE. subst e. unfold intercept in He.
    destruct (average known_y) as [muy | ey] eqn:Ey; simpl in He.
    + destruct (average known_x) as [mux | ex] eqn:Ex; simpl in He.
      * apply bind_inv_Raise in He as [He | [b [_ He]]]; [| discriminate He].
        assert (R : raises (slope known_y known_x) LengthMismatchError)
          by (exists (Exception msg_length); split; [exact He | reflexivity]).
        apply (two_sequences_mismatch_iff slope slope_empty slope_mismatch
                 slope_checked_raises) in R.
        destruct R as (_ & _ & R). repeat split. exact R.
      * exfalso. injection He as ->.
        destruct (average_raises_cases _ _ Ex) as [[_ A] | [_ A]];
          [discriminate A | destruct (arithmetic_error_not_Exception _ A)].
    + exfalso. injection He as ->.
      destruct (average_raises_cases _ _ Ey) as [[_ A] | [_ A]];
        [discriminate A | destruct (arithmetic_error_not_Exception _ A)].
  - intros (Hy & Hx & Hlen).
    apply returns_true_inv in Hy as [muy Hy].
    apply returns_true_inv in Hx as [mux Hx].
    rewrite (intercept_averages _ _ _ _ Hy Hx).
    rewrite (slope_mismatch _ _ (average_Return_nonempty _ _ Hy)
               (average_Return_nonempty _ _ Hx) Hlen).
    apply raises_Raise. reflexivity.
Qed.

(** X10. [intercept] returns exactly when [slope] does: when [slope]
    returns b, both means muy and mux are computed and [intercept]
    returns muy - b * mux. *)
Theorem intercept_returns_with_slope (known_y known_x : list number) :
  (forall b, slope known_y known_x = Return b ->
             exists muy mux,
               average known_y = Return muy /\
               average known_x = Return mux /\
               intercept known_y known_x = Return (muy - b * mux)%float) /\
  (forall a, intercept known_y known_x = Return a ->
             exists b, slope known_y known_x = Return b).
Proof.
  split.
  - intros b Hb.
    destruct (slope_Return_averages _ _ _ Hb) as (muy & mux & Hy & Hx).
    exists muy, mux. repeat split; trivial.
    rewrite (intercept_averages _ _ _ _ Hy Hx), Hb. reflexivity.
  - unfold intercept. intros a H.
    apply bind_inv_Return in H as [muy [_ H]].
    apply bind_inv_Return in H as [mux [_ H]].
    apply bind_inv_Return in H as [b [Hb _]].
    exists b. exact Hb.
Qed.

Lemma intercept_returns_with_slope_witness :
  exists muy mux,
    average example_y = Return muy /\
    average example_x = Return mux /\
    intercept example_y example_x = Return (muy - 2 * mux)%float.
Proof.
  apply (proj1 (intercept_returns_with_slope example_y example_x) 2%float).
  vm_compute. reflexivity.
Defined.

(** A float is multiplied by a number or a bool; for any other object the
    product raises TypeError. *)
Lemma float_mul_value_cases (b : float) (x : value) :
  only_raises (float_mul_value b x)
    (fun e => arithmetic_error e \/ e = TypeError).
Proof.
  assert (L : forall m : result float,
             only_raises m arithmetic_error ->
             only_raises m (fun e => arithmetic_error e \/ e = TypeError)).
  { intros m. apply only_raises_mono. intros e He. left. exact He. }
  destruct x as [n | c | s | | attrs]; simpl;
    try (apply only_raises_Raise; right; reflexivity);
    apply L; auto with arith.
Qed.

Lemma float_mul_number_arith (b : float) (x : value) :
  (exists n, x = VNum n) \/ (exists c, x = VBool c) ->
  only_raises (float_mul_value b x) arithmetic_error.
Proof.
  intros [[n ->] | [c ->]]; simpl; auto with arith.
Qed.

(** X11. The checks of [forecast] come in a fixed order.  A scalar that is
    not numeric raises NotANumberError whatever the sequences are; then an
    empty knownX raises EmptyInputError whatever knownY is; then, once the
    population variance of knownX is computed and is not zero, an empty
    knownY raises EmptyInputError and a knownY of another length raises
    LengthMismatchError. *)
Theorem forecast_check_order
  (x : value) (known_y known_x : list number) :
  (isnumber x = false ->
   raises (forecast x known_y known_x) NotANumberError) /\
  (isnumber x = true -> known_x = [] ->
   raises (forecast x known_y known_x) EmptyInputError) /\
  (forall varx,
      isnumber x = true ->
      varp known_x = Return varx -> (varx =? 0)%float = false ->
      (known_y = [] ->
       raises (forecast x known_y known_x) EmptyInputError) /\
      (known_y <> [] ->
       List.length known_y <> List.length known_x ->
       raises (forecast x known_y known_x) LengthMismatchError)).
Proof.
  split; [| split].
  - intros H. rewrite (forecast_not_numeric _ _ _ H).
    apply raises_Raise. reflexivity.
  - intros H ->. rewrite (forecast_numeric _ _ _ H).
    apply raises_Raise. left. reflexivity.
  - intros varx H Hv Hz. rewrite (forecast_numeric _ _ _ H), Hv. simpl.
    rewrite Hz. split.
    + intros ->. rewrite slope_empty by (left; reflexivity).
      apply raises_Raise. right. reflexivity.
    + intros Hy Hlen.
      assert (Hx : known_x <> []) by (intros ->; discriminate Hv).
      rewrite (slope_mismatch _ _ Hy Hx Hlen).
      apply raises_Raise. reflexivity.
Qed.

Lemma forecast_check_order_witness :
  raises (forecast VNone [] []) NotANumberError /\
  raises (forecast (VNum (PyInt 4)) example_y []) EmptyInputError /\
  raises (forecast (VNum (PyInt 4)) [] example_x) EmptyInputError /\
  raises (forecast (VNum (PyInt 4)) (ints [1; 2]%Z) example_x)
    LengthMismatchError.
Proof.
  split; [| split; [| split]].
  - apply (proj1 (forecast_check_order VNone [] [])). reflexivity.
  - apply (proj1 (proj2 (forecast_check_order (VNum (PyInt 4)) example_y [])));
      reflexivity.
  - apply (proj2 (proj2 (forecast_check_order (VNum (PyInt 4)) [] example_x))
             (2 / 3)%float); reflexivity.
  - apply (proj2 (proj2 (forecast_check_order (VNum (PyInt 4))
                           (ints [1; 2]%Z) example_x)) (2 / 3)%float);
      first [reflexivity | discriminate | (simpl; lia)].
Defined.

(** X12. Whenever [forecast] returns, the scalar is numeric, the
    population variance of knownX is a value other than zero, [slope]
    returns b, both means muy and mux are computed, and the result is
    (muy - b * mux) + b * x; conversely these computations make
    [forecast] return. *)
Theorem forecast_closed_form
  (x : value) (known_y known_x : list number) (r : float) :
  forecast x known_y known_x = Return r <->
  isnumber x = true /\
  exists varx b muy mux bx,
    varp known_x = Return varx /\ (varx =? 0)%float = false /\
    slope known_y known_x = Return b /\
    average known_y = Return muy /\
    average known_x = Return mux /\
    float_mul_value b x = Return bx /\
    r = ((muy - b * mux) + bx)%float.
Proof.
  split.
  - intros H.
    destruct (isnumber x) eqn:Ex;
      [| rewrite (forecast_not_numeric _ _ _ Ex) in H; discriminate H].
    split; [reflexivity |].
    rewrite (forecast_numeric _ _ _ Ex) in H.
    apply bind_inv_Return in H as [varx [Hv H]].
    destruct (varx =? 0)%float eqn:Ez; [discriminate H |].
    apply bind_inv_Return in H as [b [Hb H]].
    apply bind_inv_Return in H as [a [Ha H]].
    apply bind_inv_Return in H as [bx [Hbx H]].
    injection H as <-.
    destruct (slope_Return_averages _ _ _ Hb) as (muy & mux & Hy & Hx).
    rewrite (intercept_averages _ _ _ _ Hy Hx), Hb in Ha.
    injection Ha as <-.
    exists varx, b, muy, mux, bx. repeat split; assumption.
  - intros (Ex & varx & b & muy & mux & bx & Hv & Ez & Hb & Hy & Hx & Hbx & ->).
    rewrite (forecast_numeric _ _ _ Ex), Hv. simpl. rewrite Ez, Hb. simpl.
    rewrite (intercept_averages _ _ _ _ Hy Hx), Hb. simpl.
    rewrite Hbx. reflexivity.
Qed.

(** ** Every exception the module lets out *)

Lemma intercept_module (known_y known_x : list number) :
  only_raises (intercept known_y known_x) module_error.
Proof.
  unfold intercept.
  apply only_raises_bind;
    [exact (one_sequence_module average eq_refl average_arith _) | intros muy].
  apply only_raises_bind;
    [exact (one_sequence_module average eq_refl average_arith _) | intros mux].
  apply only_raises_bind;
    [exact (two_sequences_module slope slope_empty slope_mismatch
              slope_checked_raises _ _) | intros b].
  apply only_raises_Return.
Qed.

Lemma forecast_module (x : value) (known_y known_x : list number) :
  only_raises (forecast x known_y known_x)
    (fun e => module_error e \/
              exists b, slope known_y known_x = Return b /\
                        float_mul_value b x = Raise e).
Proof.
  assert (L : forall m : result float,
             only_raises m module_error ->
             only_raises m
               (fun e => module_error e \/
                         exists b, slope known_y known_x = Return b /\
                                   float_mul_value b x = Raise e)).
  { intros m. apply only_raises_mono. intros e He. left. exact He. }
  destruct (isnumber x) eqn:Ex.
  - rewrite (forecast_numeric _ _ _ Ex).
    apply only_raises_bind;
      [apply L;
       exact (one_sequence_module (fun d => variance d false) eq_refl
                (fun d H => variance_arith d false H) _) | intros varx].
    apply only_raises_if;
      [apply only_raises_Raise; left; right; right; left; right; reflexivity |].
    destruct (slope known_y known_x) as [b | e] eqn:Eb.
    + simpl. apply only_raises_bind; [apply L, intercept_module | intros a].
      apply only_raises_bind; [| intros bx; apply only_raises_Return].
      intros e He. right. exists b. split; [reflexivity | exact He].
    + simpl. apply L, only_raises_Raise.
      exact (two_sequences_module slope slope_empty slope_mismatch
               slope_checked_raises _ _ e Eb).
  - rewrite (forecast_not_numeric _ _ _ Ex).
    apply L, only_raises_Raise. right. right. right. left. reflexivity.
Qed.



(** ** Symmetry *)

Lemma rsq_sym (array1 array2 : list number) (q : float) :
  rsq array1 array2 = Return q -> rsq array2 array1 = Return q.
Proof.
  unfold rsq. intros H. apply bind_inv_Return in H as [r [Hr H]].
  rewrite (correl_sym _ _ _ Hr). exact H.
Qed.

(** X14. The deviation products do not depend on the order of the two
    sequences: whenever [sumdev] or [covar] returns a value on
    (array1, array2), it returns the same float on (array2, array1). *)
Theorem deviation_products_symmetric (array1 array2 : list number) :
  (forall t, sumdev array1 array2 = Return t ->
             sumdev array2 array1 = Return t) /\
  (forall c, covar array1 array2 = Return c ->
             covar array2 array1 = Return c).
Proof.
  split.
  - intros t H. apply sumdev_sym. exact H.
  - intros c H. apply covar_sym. exact H.
Qed.

Lemma deviation_products_symmetric_witness :
  sumdev example_y example_x = Return 4%float /\
  covar example_y example_x = Return (4 / 3)%float.
Proof.
  split.
  - apply (proj1 (deviation_products_symmetric example_x example_y)).
    vm_compute. reflexivity.
  - apply (proj2 (deviation_products_symmetric example_x example_y)).
    vm_compute. reflexivity.
Defined.

(** X15. The correlation is symmetric: whenever [correl], [pearson] or
    [rsq] returns a value on (array1, array2), it returns the same float
    on (array2, array1). *)
Theorem correlation_symmetric (array1 array2 : list number) (r : float) :
  (correl array1 array2 = Return r -> correl array2 array1 = Return r) /\
  (pearson array1 array2 = Return r -> pearson array2 array1 = Return r) /\
  (rsq array1 array2 = Return r -> rsq array2 array1 = Return r).
Proof.
  split; [| split].
  - intros H. apply correl_sym. exact H.
  - unfold pearson. intros H. apply correl_sym. exact H.
  - intros H. apply rsq_sym. exact H.
Qed.

Lemma correlation_symmetric_witness :
  correl example_y example_x = Return 1%float.
Proof.
  apply (proj1 (correlation_symmetric example_x example_y 1%float)).
  vm_compute. reflexivity.
Defined.

(** ** Population statistics *)

(** X17. The population statistics add no failure of their own: whenever
    [devsq] returns ds, the count converts to a float n other than zero
    and [varp] returns ds / n and [stdevp] its square root; whenever
    [sumdev] returns t, [covar] returns t / n. *)
Theorem population_division_never_fails :
  (forall data ds,
      devsq data = Return ds ->
      exists n,
        float_of_int (len data) = Return n /\ (n =? 0)%float = false /\
        varp data = Return (ds / n)%float /\
        stdevp data = Return (sqrt (ds / n))) /\
  (forall array1 array2 t,
      sumdev array1 array2 = Return t ->
      exists n,
        float_of_int (len array1) = Return n /\ (n =? 0)%float = false /\
        covar array1 array2 = Return (t / n)%float).
Proof.
  split.
  - intros data ds H.
    assert (Hds := H). unfold devsq in H.
    apply bind_inv_Return in H as [mu [Hmu _]].
    destruct (average_Return_inv _ _ Hmu) as (Hne & n & Hn & Hz).
    assert (Ev : varp data = Return (ds / n)%float).
    { unfold varp, variance.
      rewrite (len_nonempty data Hne), Hmu, Hds. simpl. rewrite Hn. simpl.
      apply float_truediv_nonzero, Hz. }
    exists n. repeat split; trivial.
    unfold stdevp. rewrite standard_deviation_eq.
    unfold varp in Ev. rewrite Ev. reflexivity.
  - intros array1 array2 t H.
    destruct (sumdev_Return_inv _ _ _ H)
      as (H1 & H2 & Hlen & mu1 & mu2 & Hmu1 & _).
    destruct (average_Return_inv _ _ Hmu1) as (_ & n & Hn & Hz).
    exists n. repeat split; trivial.
    rewrite (covar_checked _ _ H1 H2 Hlen), H. simpl. rewrite Hn. simpl.
    apply float_truediv_nonzero, Hz.
Qed.

Lemma population_division_never_fails_witness :
  (exists n,
      float_of_int (len example_x) = Return n /\ (n =? 0)%float = false /\
      varp example_x = Return (2 / n)%float /\
      stdevp example_x = Return (sqrt (2 / n))) /\
  (exists n,
      float_of_int (len example_x) = Return n /\ (n =? 0)%float = false /\
      covar example_x example_y = Return (4 / n)%float).
Proof.
  split.
  - apply (proj1 population_division_never_fails example_x 2%float).
    vm_compute. reflexivity.
  - apply (proj2 population_division_never_fails example_x example_y 4%float).
    vm_compute. reflexivity.
Defined.

(** ** The mean of integers *)

Lemma sum_from_ints (l : list Z) :
  forall acc, sum_from (PyInt acc) (ints l)
              = Return (PyInt (fold_left Z.add l acc)).
Proof.
  induction l as [| z rest IH]; intros acc; simpl.
  - reflexivity.
  - apply IH.
Qed.

(** X18. On a sequence of ints, [average] sums exactly, in unbounded
    integer arithmetic, and rounds once: it converts the count and the
    integer sum to floats and divides.  So the mean of
    [2**53, 1, -2**53] is 1/3, where the same numbers given as floats
    have the mean 0.0. *)
Theorem average_of_ints_sums_exactly :
  (forall l : list Z,
      l <> [] ->
      average (ints l) =
      (n <- float_of_int (len (ints l)) ;;
       s <- float_of_int (fold_left Z.add l 0%Z) ;;
       float_truediv s n)) /\
  average (ints [2 ^ 53; 1; - 2 ^ 53]%Z) = Return (1 / 3)%float /\
  average (floats [0x1p53; 1; -0x1p53]%float) = Return 0%float.
Proof.
  split; [| split; vm_compute; reflexivity].
  intros l Hne. unfold average.
  assert (Hi : ints l <> []) by (destruct l; [contradiction | discriminate]).
  rewrite (len_nonempty _ Hi). unfold sum. rewrite sum_from_ints.
  reflexivity.
Qed.

Lemma average_of_ints_sums_exactly_witness :
  average (ints [1; 2; 4]%Z) =
  (n <- float_of_int (len (ints [1; 2; 4]%Z)) ;;
   s <- float_of_int (fold_left Z.add [1; 2; 4]%Z 0%Z) ;;
   float_truediv s n).
Proof.
  apply (proj1 average_of_ints_sums_exactly [1; 2; 4]%Z). discriminate.
Defined.

(** ** Correlation *)

Lemma stdevp_Return_sqrt (data : list number) (s : float) :
  stdevp data = Return s ->
  exists v, varp data = Return v /\ s = sqrt v.
Proof.
  unfold stdevp, varp. rewrite standard_deviation_eq. intros H.
  apply bind_inv_Return in H as [v [Hv H]]. injection H as <-.
  exists v. split; [exact Hv | reflexivity].
Qed.

(** The product of two population standard deviations that are not zero
    is not zero. *)
Lemma stdevp_product_nonzero (array1 array2 : list number) (s1 s2 : float) :
  stdevp array1 = Return s1 -> stdevp array2 = Return s2 ->
  (s1 =? 0)%float = false -> (s2 =? 0)%float = false ->
  (s1 * s2 =? 0)%float = false.
Proof.
  intros H1 H2 Z1 Z2.
  apply stdevp_Return_sqrt in H1 as [v1 [_ ->]].
  apply stdevp_Return_sqrt in H2 as [v2 [_ ->]].
  apply sqrt_mul_nonzero; assumption.
Qed.

Section CorrelChecked.
Variables array1 array2 : list number.
Hypothesis Hne : array1 <> [].
Hypothesis Hlen : List.length array1 = List.length array2.

Lemma second_nonempty : array2 <> [].
Proof. intros E. rewrite E in Hlen. destruct array1; [contradiction | discriminate Hlen]. Qed.

Lemma correl_checked :
  correl array1 array2 =
  (stdev1 <- stdevp array1 ;;
   stdev2 <- stdevp array2 ;;
   if ((stdev1 =? 0)%float || (stdev2 =? 0)%float)%bool
   then Raise (Exception msg_zero_stdev)
   else
     c <- covar array1 array2 ;;
     float_truediv c (stdev1 * stdev2)%float).
Proof.
  unfold correl.
  rewrite (empty_check_false _ _ Hne second_nonempty),
    (length_check_false _ _ Hlen).
  reflexivity.
Qed.

Lemma correl_both_computed (stdev1 stdev2 : float) :
  stdevp array1 = Return stdev1 -> stdevp array2 = Return stdev2 ->
  exists t n,
    sumdev array1 array2 = Return t /\
    float_of_int (len array1) = Return n /\
    covar array1 array2 = Return (t / n)%float /\
    correl array1 array2 =
    if ((stdev1 =? 0)%float || (stdev2 =? 0)%float)%bool
    then Raise (Exception msg_zero_stdev)
    else Return (t / n / (stdev1 * stdev2))%float.
Proof.
  intros H1 H2.
  destruct (covar_returns _ _ _ _ Hne Hlen H1 H2) as [c Hc].
  destruct (covar_Return_inv _ _ _ Hc) as (_ & _ & _ & t & n & Ht & Hn & _ & ->).
  exists t, n. repeat split; trivial.
  rewrite correl_checked, H1, H2. simpl.
  destruct (stdev1 =? 0)%float eqn:Z1; [reflexivity |].
  destruct (stdev2 =? 0)%float eqn:Z2; [reflexivity |].
  simpl. rewrite Hc. simpl.
  apply float_truediv_nonzero.
  exact (stdevp_product_nonzero _ _ _ _ H1 H2 Z1 Z2).
Qed.
End CorrelChecked.

(** C4, as stated, fails: the population standard deviation of [1, 1] is
    exactly zero, yet with [2 ** 700, -(2 ** 700)] as the other sequence
    [correl] raises OverflowError, from the squared deviation in [stdevp]
    of that sequence, and not ZeroVarianceError. *)
Lemma correl_zero_stdev_overflow :
  stdevp (ints [1; 1]%Z) = Return 0%float /\
  correl (ints [1; 1]%Z) (floats [0x1p700; -0x1p700]%float)
  = Raise OverflowError /\
  ~ raises (correl (ints [1; 1]%Z) (floats [0x1p700; -0x1p700]%float))
      ZeroVarianceError.
Proof.
  assert (E : correl (ints [1; 1]%Z) (floats [0x1p700; -0x1p700]%float)
              = Raise OverflowError) by (vm_compute; reflexivity).
  split; [vm_compute; reflexivity | split; [exact E |]].
  rewrite E. intros H. apply raises_inv in H.
  destruct H as [H | H]; discriminate H.
Qed.

(** C4, amended. On non-empty sequences of equal length whose population
    standard deviations stdev1 and stdev2 are both computed, [correl]
    raises ZeroVarianceError if and only if stdev1 or stdev2 is exactly
    zero; otherwise it returns covar / (stdev1 * stdev2), where covar is
    the value sumdev(array1, array2) / n.  When a [stdevp] call raises,
    [correl] raises the same exception, whatever the other standard
    deviation is. *)
Theorem correl_zero_variance (array1 array2 : list number) :
  array1 <> [] ->
  List.length array1 = List.length array2 ->
  (forall stdev1 stdev2,
      stdevp array1 = Return stdev1 ->
      stdevp array2 = Return stdev2 ->
      (raises (correl array1 array2) ZeroVarianceError <->
       (stdev1 =? 0)%float = true \/ (stdev2 =? 0)%float = true) /\
      (~ ((stdev1 =? 0)%float = true \/ (stdev2 =? 0)%float = true) ->
       exists t n,
         sumdev array1 array2 = Return t /\
         float_of_int (len array1) = Return n /\
         covar array1 array2 = Return (t / n)%float /\
         correl array1 array2
         = Return (t / n / (stdev1 * stdev2))%float)) /\
  (forall e, stdevp array1 = Raise e -> correl array1 array2 = Raise e) /\
  (forall stdev1 e,
      stdevp array1 = Return stdev1 -> stdevp array2 = Raise e ->
      correl array1 array2 = Raise e).
Proof.
  intros Hne Hlen. split; [| split].
  - intros stdev1 stdev2 H1 H2.
    destruct (correl_both_computed _ _ Hne Hlen _ _ H1 H2)
      as (t & n & Ht & Hn & Hc & E).
    split.
    + rewrite E.
      destruct (stdev1 =? 0)%float, (stdev2 =? 0)%float; simpl;
        (split; [intros HR | intros HZ]);
        try (left; reflexivity); try (right; reflexivity);
        try (apply raises_Raise; left; reflexivity).
      * destruct HR as [e [He _]]. discriminate He.
      * destruct HZ as [HZ | HZ]; discriminate HZ.
    + intros HZ. exists t, n. repeat split; trivial. rewrite E.
      destruct (stdev1 =? 0)%float; [exfalso; apply HZ; left; reflexivity |].
      destruct (stdev2 =? 0)%float; [exfalso; apply HZ; right; reflexivity |].
      reflexivity.
  - intros e He. rewrite (correl_checked _ _ Hne Hlen), He. reflexivity.
  - intros stdev1 e H1 He.
    rewrite (correl_checked _ _ Hne Hlen), H1, He. reflexivity.
Qed.

Lemma correl_zero_variance_witness :
  (raises (correl example_x (ints [7; 7; 7]%Z)) ZeroVarianceError <->
   (sqrt (2 / 3) =? 0)%float = true \/ (0 =? 0)%float = true) /\
  (exists t n,
      sumdev example_x example_y = Return t /\
      float_of_int (len example_x) = Return n /\
      covar example_x example_y = Return (t / n)%float /\
      correl example_x example_y
      = Return (t / n / (sqrt (2 / 3) * sqrt (8 / 3)))%float) /\
  correl (floats [0x1p700; -0x1p700]%float) (ints [1; 1]%Z)
  = Raise OverflowError.
Proof.
  split; [| split].
  - apply (proj1 (correl_zero_variance example_x (ints [7; 7; 7]%Z)
                    ltac:(discriminate) eq_refl)
             (sqrt (2 / 3))%float 0%float);
      vm_compute; reflexivity.
  - apply (proj1 (correl_zero_variance example_x example_y
                    ltac:(discriminate) eq_refl)
             (sqrt (2 / 3))%float (sqrt (8 / 3))%float).
    + vm_compute. reflexivity.
    + vm_compute. reflexivity.
    + intros [H | H]; vm_compute in H; discriminate H.
  - apply (proj1 (proj2 (correl_zero_variance
                           (floats [0x1p700; -0x1p700]%float) (ints [1; 1]%Z)
                           ltac:(discriminate) eq_refl))).
    vm_compute. reflexivity.
Defined.

(** ** Self-correlation *)

Lemma sumdev_loop_self_nonneg (mu : float) (data : list number) :
  forall tot t,
    nonneg tot ->
    sumdev_loop mu mu (combine data data) tot = Return t -> nonneg t.
Proof.
  induction data as [| x rest IH]; intros tot t Ht H; simpl in H.
  - injection H as <-. exact Ht.
  - apply bind_inv_Return in H as [dx [Hx H]].
    apply bind_inv_Return in H as [dy [Hy H]].
    rewrite Hx in Hy. injection Hy as <-.
    exact (IH _ _ (nonneg_add _ _ Ht (nonneg_square dx)) H).
Qed.

(** The covariance of a sequence with itself is never negative: it sums
    products of a deviation with itself. *)
Lemma covar_self_nonneg (a : list number) (c : float) :
  covar a a = Return c -> nonneg c.
Proof.
  intros H.
  apply covar_Return_inv in H as (_ & _ & _ & t & n & Ht & Hn & Hz & ->).
  apply sumdev_Return_inv in Ht as (_ & _ & _ & mu1 & mu2 & H1 & H2 & Ht).
  rewrite H1 in H2. injection H2 as <-.
  apply nonneg_div.
  - exact (sumdev_loop_self_nonneg mu1 a _ _ nonneg_zero Ht).
  - exact (float_of_int_nonneg _ _ (len_nonneg a) Hn).
  - exact Hz.
Qed.


